(** * Concentra: the voice-driven study timer of [concentra_app.py]

    A shallow embedding of the logical core of the application: the helper
    [word_to_num], the capture routine [VoiceWorker.get_voice_input] and the
    interaction loop [VoiceWorker.run], together with the Python built-ins
    they rely on ([str.lower], [str.strip], [in] on strings, [float]).

    Python floats are IEEE-754 binary64 numbers; they are modelled by the
    Standard Library's [spec_float] at precision 53 and maximal exponent
    1024, so that signed zeros, infinities and NaN behave as in Python.
    Python strings are modelled by [string]; the utterances handled here
    are the ASCII transcriptions returned by the recognizer. *)

From Stdlib Require Import ZArith List Bool Ascii String Lia.
From Stdlib Require Import Floats.SpecFloat.
Import ListNotations.

Open Scope string_scope.
Open Scope list_scope.
Open Scope Z_scope.

(** ** Exceptions and results *)

(** The exception classes that occur in the program: [Exception] and
    classes that derive directly from it. *)
Inductive exn_class : Type :=
| Exception
| ValueError
| TypeError
| OverflowError
| IndexError
| OSError
| WaitTimeoutError
| UnknownValueError
| RequestError.

Record exn : Type := mk_exn { exn_cls : exn_class; exn_msg : string }.

Definition exn_class_eqb (a b : exn_class) : bool :=
  match a, b with
  | Exception, Exception
  | ValueError, ValueError
  | TypeError, TypeError
  | OverflowError, OverflowError
  | IndexError, IndexError
  | OSError, OSError
  | WaitTimeoutError, WaitTimeoutError
  | UnknownValueError, UnknownValueError
  | RequestError, RequestError => true
  | _, _ => false
  end.

(** [isinstance(e, cls)] for an exception [e]: every class is a subclass
    of [Exception], and otherwise only of itself. *)
Definition is_instance (cls : exn_class) (e : exn) : bool :=
  match cls with
  | Exception => true
  | _ => exn_class_eqb (exn_cls e) cls
  end.

(** The result of a call that does no input or output: a value, or an
    exception. *)
Inductive result (A : Type) : Type :=
| Ok (a : A)
| Raise (e : exn).
Arguments Ok {A} a.
Arguments Raise {A} e.

Definition result_bind {A B : Type} (r : result A) (k : A -> result B) : result B :=
  match r with
  | Ok a => k a
  | Raise e => Raise e
  end.

(** [try: body  except cls: handler] for pure code. *)
Definition result_try {A : Type} (body : result A) (cls : exn_class)
    (handler : result A) : result A :=
  match body with
  | Ok a => Ok a
  | Raise e => if is_instance cls e then handler else Raise e
  end.

(** ** Floats *)

Definition pyfloat : Type := spec_float.

Definition f64_prec : Z := 53.
Definition f64_emax : Z := 1024.

(** The float nearest to the integer [n] (ties to even). *)
Definition f64_of_Z (n : Z) : pyfloat :=
  binary_normalize f64_prec f64_emax n 0 false.

(** The float nearest to [(-1)^s * m / d] for positive [m] and [d]. *)
Definition f64_of_ratio (s : bool) (m d : positive) : pyfloat :=
  let '(q, e, l) := SFdiv_core_binary f64_prec f64_emax (Zpos m) 0 (Zpos d) 0 in
  binary_round_aux f64_prec f64_emax s q e l.

(** The float nearest to [(-1)^s * m * 10^e]: what a decimal literal
    denotes. *)
Definition f64_of_decimal (s : bool) (m : Z) (e : Z) : pyfloat :=
  match m with
  | Z0 => S754_zero s
  | Zneg _ => S754_nan
  | Zpos p =>
      match e with
      | Zneg k => f64_of_ratio s p (Pos.pow 10 k)
      | _ => binary_round f64_prec f64_emax s (Pos.mul p (Z.to_pos (10 ^ e))) 0
      end
  end.

Definition f64_mul (x y : pyfloat) : pyfloat := SFmul f64_prec f64_emax x y.
Definition f64_ltb (x y : pyfloat) : bool := SFltb x y.

Definition f64_zero : pyfloat := S754_zero false.

(** [x > 0] for a float [x] and the integer literal [0]. *)
Definition f64_gt0 (x : pyfloat) : bool := f64_ltb f64_zero x.

(** [x * n] for a float [x] and an integer literal [n]. *)
Definition f64_mul_int (x : pyfloat) (n : Z) : pyfloat := f64_mul x (f64_of_Z n).

Definition f64_is_finite (x : pyfloat) : bool :=
  match x with
  | S754_zero _ | S754_finite _ _ _ => true
  | S754_infinity _ | S754_nan => false
  end.

(** ** Characters and strings *)

Definition ascii_code (c : ascii) : Z := Z.of_nat (nat_of_ascii c).

(** [c.isspace()] on the ASCII range: tab, line feed, vertical tab, form
    feed, carriage return, the four separators 28 to 31, and the space. *)
Definition is_space (c : ascii) : bool :=
  let n := ascii_code c in
  ((9 <=? n) && (n <=? 13)) || ((28 <=? n) && (n <=? 32)).

Definition is_digit (c : ascii) : bool :=
  let n := ascii_code c in (48 <=? n) && (n <=? 57).

Definition is_upper (c : ascii) : bool :=
  let n := ascii_code c in (65 <=? n) && (n <=? 90).

(** [c.lower()]: the letters A to Z move to a to z, every other
    character stays. *)
Definition ascii_lower (c : ascii) : ascii :=
  if is_upper c then ascii_of_nat (nat_of_ascii c + 32) else c.

(** [s.lower()] *)
Fixpoint str_lower (s : string) : string :=
  match s with
  | EmptyString => EmptyString
  | String c r => String (ascii_lower c) (str_lower r)
  end.

(** [s.lstrip()] *)
Fixpoint str_lstrip (s : string) : string :=
  match s with
  | EmptyString => EmptyString
  | String c r => if is_space c then str_lstrip r else s
  end.

(** [s.rstrip()] *)
Fixpoint str_rstrip (s : string) : string :=
  match s with
  | EmptyString => EmptyString
  | String c r =>
      match str_rstrip r with
      | EmptyString => if is_space c then EmptyString else String c EmptyString
      | r' => String c r'
      end
  end.

(** [s.strip()] *)
Definition str_strip (s : string) : string := str_rstrip (str_lstrip s).

(** The string is empty or starts with a character that is no blank. *)
Definition starts_clean (s : string) : bool :=
  match s with
  | EmptyString => true
  | String c _ => negb (is_space c)
  end.

(** [hay.startswith(needle)] *)
Fixpoint str_startswith (needle hay : string) : bool :=
  match needle, hay with
  | EmptyString, _ => true
  | String a n, String b h => Ascii.eqb a b && str_startswith n h
  | String _ _, EmptyString => false
  end.

(** [needle in hay] for two strings. *)
Fixpoint str_contains (needle hay : string) : bool :=
  str_startswith needle hay ||
  match hay with
  | EmptyString => false
  | String _ h => str_contains needle h
  end.

(** The truth value of a string: the empty string is false. *)
Definition str_truthy (s : string) : bool :=
  match s with
  | EmptyString => false
  | String _ _ => true
  end.

(** ** The built-in [float]

    [float(s)] for a string [s] of ASCII characters: blanks around the
    literal are dropped, single underscores between digits are dropped, and
    what remains is an optional sign followed by [inf], [infinity] or [nan]
    in any letter case, or by a decimal literal. The value is the binary64
    number nearest to the literal. *)

Definition digit_val (c : ascii) : Z := ascii_code c - 48.

(** The longest prefix of decimal digits, and what follows it. *)
Fixpoint span_digits (s : string) : string * string :=
  match s with
  | EmptyString => (EmptyString, EmptyString)
  | String c r =>
      if is_digit c
      then let '(d, rest) := span_digits r in (String c d, rest)
      else (EmptyString, s)
  end.

Fixpoint Z_of_digits_from (acc : Z) (s : string) : Z :=
  match s with
  | EmptyString => acc
  | String c r => Z_of_digits_from (10 * acc + digit_val c) r
  end.

Definition Z_of_digits (s : string) : Z := Z_of_digits_from 0 s.

(** Digit separators: an underscore is accepted only directly between two
    digits, and is dropped. [prev] is the character read before [s]. *)
Fixpoint drop_underscores (prev : ascii) (s : string) : option string :=
  match s with
  | EmptyString => if Ascii.eqb prev "_" then None else Some EmptyString
  | String c r =>
      if Ascii.eqb c "_"
      then (if is_digit prev then drop_underscores c r else None)
      else if Ascii.eqb prev "_" && negb (is_digit c) then None
      else option_map (String c) (drop_underscores c r)
  end.

(** An optional sign: [true] for a minus. *)
Definition parse_sign (s : string) : bool * string :=
  match s with
  | String c r =>
      if Ascii.eqb c "-" then (true, r)
      else if Ascii.eqb c "+" then (false, r)
      else (false, s)
  | EmptyString => (false, s)
  end.

(** [inf], [infinity] and [nan], in any letter case. *)
Definition parse_special (sg : bool) (body : string) : option pyfloat :=
  let l := str_lower body in
  if String.eqb l "inf" || String.eqb l "infinity" then Some (S754_infinity sg)
  else if String.eqb l "nan" then Some S754_nan
  else None.

Definition is_exponent_mark (c : ascii) : bool :=
  Ascii.eqb c "e" || Ascii.eqb c "E".

(** A decimal literal: digits with an optional point and an optional
    exponent, at least one digit before the exponent, at least one digit in
    the exponent, and nothing after it. *)
Definition parse_decimal (sg : bool) (body : string) : option pyfloat :=
  let '(ip, r1) := span_digits body in
  let '(fp, r2) :=
    match r1 with
    | String c r => if Ascii.eqb c "." then span_digits r else (EmptyString, r1)
    | EmptyString => (EmptyString, r1)
    end in
  if String.eqb ip "" && String.eqb fp "" then None
  else
    let m := Z_of_digits (ip ++ fp)%string in
    let scale := Z.of_nat (String.length fp) in
    match r2 with
    | EmptyString => Some (f64_of_decimal sg m (- scale))
    | String c r =>
        if is_exponent_mark c then
          let '(es, r3) := parse_sign r in
          let '(ed, r4) := span_digits r3 in
          if String.eqb ed "" || negb (String.eqb r4 "") then None
          else
            let ex := if es then - Z_of_digits ed else Z_of_digits ed in
            Some (f64_of_decimal sg m (ex - scale))
        else None
    end.

Definition could_not_convert : exn :=
  mk_exn ValueError "could not convert string to float".

(** [float(s)] for a string [s]. *)
Definition float_of_str (s : string) : result pyfloat :=
  match drop_underscores zero (str_strip s) with
  | None => Raise could_not_convert
  | Some u =>
      let '(sg, body) := parse_sign u in
      match parse_special sg body with
      | Some x => Ok x
      | None =>
          match parse_decimal sg body with
          | Some x => Ok x
          | None => Raise could_not_convert
          end
      end
  end.

(** [float(n)] for an integer [n]: the nearest float, or [OverflowError]
    when [n] is beyond the range of floats. *)
Definition float_of_int (n : Z) : result pyfloat :=
  match f64_of_Z n with
  | S754_infinity _ => Raise (mk_exn OverflowError "int too large to convert to float")
  | x => Ok x
  end.

(** ** Python values *)

#[warnings="-register-all"]
Inductive pyval : Type :=
| PyNone
| PyBool (b : bool)
| PyInt (n : Z)
| PyFloat (x : pyfloat)
| PyStr (s : string)
| PyBytes (b : list Byte.byte)
| PyList (l : list pyval).


(** The built-in [float(v)]. *)
Definition py_float (v : pyval) : result pyfloat :=
  match v with
  | PyStr s => float_of_str s
  | PyFloat x => Ok x
  | PyInt n => float_of_int n
  | PyBool b => Ok (f64_of_Z (if b then 1 else 0))
  | PyNone | PyBytes _ | PyList _ =>
      Raise (mk_exn TypeError "float() argument must be a string or a real number")
  end.

(** ** Effects: status signals, speech, microphone, clock

    The program talks to the outside through the calls below. A run is
    described by the list of events it produces, in the order in which they
    happen. *)

(** What [r.listen] returns: the recorded samples. *)
Definition audio : Type := list Byte.byte.

Inductive event : Type :=
| Status (msg : string)        (* self.status_updated.emit(msg) *)
| Spoken (text : string)       (* the text was synthesised and played *)
| Console (line : string)      (* print(line) *)
| MicOpened                    (* entering [with sr.Microphone()] *)
| Calibrated                   (* r.adjust_for_ambient_noise returned *)
| Heard (a : audio)            (* r.listen returned [a] *)
| MicClosed                    (* leaving the [with] block *)
| Slept (seconds : pyfloat)    (* time.sleep(seconds) returned *)
| Finished.                    (* self.finished.emit() *)

Definition trace : Type := list event.

(** What the collaborators of one call of [get_voice_input] do: opening
    the microphone, calibrating, listening, and recognizing speech. *)
Record attempt : Type := mk_attempt {
  att_open : result unit;
  att_adjust : result unit;
  att_listen : result audio;
  att_recognize : audio -> result string
}.

(** The outside world: given what has happened so far, how the text to
    speech and playback chain answers a request, and how the collaborators
    of the next capture answer. *)
Record world : Type := mk_world {
  tts_play : trace -> string -> result unit;
  next_attempt : trace -> attempt
}.

(** How a command ends: with a value, with an exception that nothing
    caught, or still inside a loop when the observation stops. *)
Inductive outcome (A : Type) : Type :=
| Returned (a : A)
| Raised (e : exn)
| Unfinished.
Arguments Returned {A} a.
Arguments Raised {A} e.
Arguments Unfinished {A}.

(** A command reads the events that happened before it and answers with
    its outcome and the events it adds. *)
Definition io (A : Type) : Type := trace -> outcome A * trace.

Definition io_ret {A : Type} (a : A) : io A := fun _ => (Returned a, []).

Definition io_bind {A B : Type} (m : io A) (k : A -> io B) : io B :=
  fun h =>
    let '(r, es) := m h in
    match r with
    | Returned a => let '(r', es') := k a (h ++ es) in (r', es ++ es')
    | Raised e => (Raised e, es)
    | Unfinished => (Unfinished, es)
    end.

Declare Scope io_scope.
Delimit Scope io_scope with io.
Notation "x <- m ;; k" := (io_bind m (fun x => k))
  (at level 61, m at next level, right associativity) : io_scope.
Notation "m ;; k" := (io_bind m (fun _ => k))
  (at level 61, right associativity) : io_scope.
Open Scope io_scope.

Definition io_emit (e : event) : io unit := fun _ => (Returned tt, [e]).

Definition io_raise {A : Type} (e : exn) : io A := fun _ => (Raised e, []).

Definition io_unfinished {A : Type} : io A := fun _ => (Unfinished, []).

(** The outcome of pure code, inside a command. *)
Definition io_lift {A : Type} (r : result A) : io A :=
  match r with
  | Ok a => io_ret a
  | Raise e => io_raise e
  end.

(** The first handler whose class the exception is an instance of. *)
Fixpoint find_handler {A : Type} (e : exn)
    (handlers : list (exn_class * (exn -> io A))) : option (io A) :=
  match handlers with
  | [] => None
  | (cls, handler) :: rest =>
      if is_instance cls e then Some (handler e) else find_handler e rest
  end.

(** [try: body  except cls1 as e: handler1  except cls2 as e: handler2 ...] *)
Definition io_try {A : Type} (body : io A)
    (handlers : list (exn_class * (exn -> io A))) : io A :=
  fun h =>
    let '(r, es) := body h in
    match r with
    | Raised e =>
        match find_handler e handlers with
        | Some handler => let '(r', es') := handler (h ++ es) in (r', es ++ es')
        | None => (Raised e, es)
        end
    | _ => (r, es)
    end.

(** [with sr.Microphone() as source: body]: the microphone is released
    however the body ends. *)
Definition with_microphone {A : Type} (open : result unit) (body : io A) : io A :=
  io_lift open ;;
  io_emit MicOpened ;;
  fun h => let '(r, es) := body h in (r, es ++ [MicClosed]).

(** [self.status_updated.emit(msg)] *)
Definition emit_status (msg : string) : io unit := io_emit (Status msg).

(** What [time.sleep] makes of its argument before it blocks. The length
    is converted to a count of nanoseconds held in a signed 64-bit integer:
    NaN is refused with [ValueError]; a count of magnitude [2^63] or more,
    an infinity among them, with [OverflowError]; a negative length with
    [ValueError]. The count is rounded to a whole number, away from zero,
    before the range is tested; a float below [2^63] of magnitude [2^53] or
    more is a whole number already, so the rounding changes no answer. *)
Definition sleep_argument (seconds : pyfloat) : result unit :=
  match seconds with
  | S754_nan => Raise (mk_exn ValueError "Invalid value NaN (not a number)")
  | _ =>
      let ns := f64_mul seconds (f64_of_Z (10 ^ 9)) in
      if SFleb (f64_of_Z (- 2 ^ 63)) ns && f64_ltb ns (f64_of_Z (2 ^ 63)) then
        if f64_ltb seconds f64_zero
        then Raise (mk_exn ValueError "sleep length must be non-negative")
        else Ok tt
      else Raise (mk_exn OverflowError "timestamp too large to convert to C _PyTime_t")
  end.

(** [time.sleep(seconds)]: the argument is checked; when it is accepted the
    call blocks and returns, which is recorded with its argument. How long
    the call really blocks is real time and outside this model. *)
Definition time_sleep (seconds : pyfloat) : io unit :=
  io_lift (sleep_argument seconds) ;;
  io_emit (Slept seconds).

(** A fragment of the vocabulary of the [word2number] package, to run the
    program on examples: [w2n.word_to_num] answers an integer for a number
    phrase and raises [ValueError] when it finds no number word. *)
Definition sample_w2n (s : string) : result pyval :=
  if String.eqb s "five" then Ok (PyInt 5)
  else if String.eqb s "ten" then Ok (PyInt 10)
  else if String.eqb s "twenty five" then Ok (PyInt 25)
  else Raise (mk_exn ValueError "No valid number words found!").

(** The word converter on a phrase that starts with a multiplier: for
    "million one" the package looks for the number in front of "million"
    in an empty list, and [IndexError] leaves it. *)
Definition sample_w2n_million (s : string) : result pyval :=
  if String.eqb s "million one"
  then Raise (mk_exn IndexError "list index out of range")
  else sample_w2n s.

(** A sample rendering of floats inside messages, enough for the examples:
    the three numbers of [sample_w2n], and a placeholder otherwise. *)
Definition sample_float_str (x : pyfloat) : string :=
  if SFeqb x (f64_of_Z 5) then "5.0"
  else if SFeqb x (f64_of_Z 10) then "10.0"
  else if SFeqb x (f64_of_Z 25) then "25.0"
  else "?".

(** Sample collaborators of a capture: the four outcomes of the capture
    contract, and a machine without a microphone. *)
Definition attempt_text (s : string) : attempt :=
  mk_attempt (Ok tt) (Ok tt) (Ok []) (fun _ => Ok s).

Definition attempt_timeout : attempt :=
  mk_attempt (Ok tt) (Ok tt)
    (Raise (mk_exn WaitTimeoutError "listening timed out while waiting for phrase to start"))
    (fun _ => Ok "").

Definition attempt_unintelligible : attempt :=
  mk_attempt (Ok tt) (Ok tt) (Ok []) (fun _ => Raise (mk_exn UnknownValueError "")).

Definition attempt_service_error : attempt :=
  mk_attempt (Ok tt) (Ok tt) (Ok [])
    (fun _ => Raise (mk_exn RequestError "recognition connection failed")).

Definition attempt_no_microphone : attempt :=
  mk_attempt (Raise (mk_exn OSError "No Default Input Device Available"))
    (Ok tt) (Ok []) (fun _ => Ok "").

(** The captures that have ended so far. *)
Fixpoint captures_done (h : trace) : nat :=
  match h with
  | [] => O
  | MicClosed :: r => S (captures_done r)
  | _ :: r => captures_done r
  end.

(** A sample world: speech always plays, and the captures follow [script],
    then [after] for ever. *)
Definition scripted (script : list attempt) (after : attempt) : world :=
  mk_world (fun _ _ => Ok tt) (fun h => nth (captures_done h) script after).

(** A sample world whose text to speech service is out of reach. *)
Definition scripted_mute (script : list attempt) (after : attempt) : world :=
  mk_world (fun _ _ => Raise (mk_exn OSError "Failed to connect"))
           (fun h => nth (captures_done h) script after).

(** The outcome of a capture as the loop's contract names it: a text, a
    timeout, unintelligible speech, a service error; or an error outside
    the contract. *)
Inductive capture_outcome : Type :=
| CapText (text : string)
| CapTimeout
| CapUnintelligible
| CapServiceError
| CapError (e : exn).

Definition classify_recognition (r : result string) : capture_outcome :=
  match r with
  | Ok text => CapText text
  | Raise e =>
      if is_instance UnknownValueError e then CapUnintelligible
      else if is_instance RequestError e then CapServiceError
      else CapError e
  end.

Definition classify (a : attempt) : capture_outcome :=
  match att_open a with
  | Raise e => CapError e
  | Ok _ =>
      match att_adjust a with
      | Raise e => CapError e
      | Ok _ =>
          match att_listen a with
          | Raise e => if is_instance WaitTimeoutError e then CapTimeout else CapError e
          | Ok sound => classify_recognition (att_recognize a sound)
          end
      end
  end.

(** What one call of [speak_text] adds to the trace in world [W]. *)
Definition speech_event (W : world) (h : trace) (text : string) : event :=
  match tts_play W h text with
  | Ok _ => Spoken text
  | Raise e => Console ("Error in speak_text: " ++ exn_msg e)%string
  end.

(** A step of a script: say a text through [speak_text], or produce an
    event directly. *)
Inductive action : Type :=
| Say (text : string)
| Do (e : event).

(** The events a script produces in world [W] after the events [h]. *)
Fixpoint perform (W : world) (h : trace) (script : list action) : trace :=
  match script with
  | [] => []
  | Say text :: rest =>
      speech_event W h text :: perform W (h ++ [speech_event W h text]) rest
  | Do e :: rest => e :: perform W (h ++ [e]) rest
  end.

Definition is_status (e : event) : bool :=
  match e with
  | Status _ => true
  | _ => false
  end.



(** ** The program *)

Section Concentra.

(** [w2n.word_to_num] of the [word2number] package: a number for a phrase
    of number words, or an exception. *)
Variable w2n_word_to_num : string -> result pyval.

(** The text of a float inside an f-string. *)
Variable float_str : pyfloat -> string.

Variable W : world.

(** [word_to_num(word)], lines 49 to 61. The second [try] is reached when
    the handler of the first one passes. *)
Definition word_to_num (word : pyval) : result (option pyfloat) :=
  match word with
  | PyStr s =>
      let word := str_strip (str_lower s) in
      result_try
        (result_bind (py_float (PyStr word)) (fun x => Ok (Some x)))
        ValueError
        (result_try
           (result_bind (w2n_word_to_num word) (fun n =>
            result_bind (py_float n) (fun x => Ok (Some x))))
           ValueError
           (Ok None))
  | _ => Ok None
  end.

(** [speak_text(text)], lines 32 to 47. The synthesis and the playback
    are the collaborator [tts_play]; whatever it raises is printed. *)
Definition speak_text (text : string) : io unit :=
  io_try
    ((fun h => io_lift (tts_play W h text) h) ;; io_emit (Spoken text))
    [(Exception, fun e => io_emit (Console ("Error in speak_text: " ++ exn_msg e)%string))].

(** The [with] block of [get_voice_input], lines 73 to 81, once the
    collaborators of this capture are known: [None] stands for the
    [return None] of the timeout handler. *)
Definition listen_phase (a : attempt) : io (option audio) :=
  with_microphone (att_open a)
    (io_lift (att_adjust a) ;;
     io_emit Calibrated ;;
     emit_status "Listening..." ;;
     speak_text "Listening" ;;
     io_try
       (sound <- io_lift (att_listen a) ;;
        io_emit (Heard sound) ;;
        io_ret (Some sound))
       [(WaitTimeoutError, fun _ =>
           emit_status "Listening timed out. Try again." ;;
           io_ret None)]).

(** The recognition of what was heard, lines 82 to 94. *)
Definition recognize_phase (a : attempt) (sound : audio) : io (option string) :=
  io_try
    (text <- io_lift (att_recognize a sound) ;;
     emit_status ("You said: " ++ text)%string ;;
     speak_text ("You said " ++ text)%string ;;
     io_ret (Some text))
    [(UnknownValueError, fun _ =>
        emit_status "Could not understand audio. Please try again." ;;
        speak_text "Sorry, I did not understand." ;;
        io_ret None);
     (RequestError, fun _ =>
        emit_status "Speech service error. Please check connection." ;;
        speak_text "Sorry, there is a problem with the speech service." ;;
        io_ret None)].

(** The body of [get_voice_input], lines 71 to 94. *)
Definition capture_with (a : attempt) (prompt_text : string) : io (option string) :=
  speak_text prompt_text ;;
  heard <- listen_phase a ;;
  match heard with
  | None => io_ret None
  | Some sound => recognize_phase a sound
  end.

(** [self.get_voice_input(prompt_text)], lines 69 to 94. *)
Definition get_voice_input (prompt_text : string) : io (option string) :=
  fun h => capture_with (next_attempt W h) prompt_text h.

(** Lines 110 and 111. *)
Definition reject_input : io unit :=
  emit_status "Invalid input. Please say a positive number." ;;
  speak_text "Invalid input. Please say a number.".

(** What the first loop does with a captured utterance, lines 105 to 111:
    [Some m] when the loop is left with [alarm_minutes = m]. *)
Definition check_minutes (user_input : string) : io (option pyfloat) :=
  minutes <- io_lift (word_to_num (PyStr user_input)) ;;
  match minutes with
  | Some m =>
      if f64_gt0 m then io_ret (Some m)
      else reject_input ;; io_ret None
  | None => reject_input ;; io_ret None
  end.

(** One pass through the body of the first loop, lines 102 to 111: [Some m]
    when the loop is left with [alarm_minutes = m], [None] when the body
    ends and the loop goes round again. *)
Definition collect_iteration : io (option pyfloat) :=
  user_input <- get_voice_input "Set alarm time in minutes" ;;
  match user_input with
  | None => io_ret None
  | Some u => check_minutes u
  end.

(** The first loop, lines 101 to 111, followed for at most [fuel] passes. *)
Fixpoint collect_loop (fuel : nat) : io pyfloat :=
  match fuel with
  | O => io_unfinished
  | S k =>
      r <- collect_iteration ;;
      match r with
      | Some m => io_ret m
      | None => collect_loop k
      end
  end.

Definition time_is_up_text : string :=
  "Hey, are you studying? I’m just here to remind you — stay focused, you can do it! Do you want to continue with the same timer or stop? Say 'stop' to end, or say nothing to continue.".

(** The countdown, lines 117 to 119. *)
Definition counting (original_minutes : pyfloat) : io unit :=
  time_sleep (f64_mul_int original_minutes 60) ;;
  emit_status "Time's up! Say 'stop' to end." ;;
  speak_text time_is_up_text.

(** [response and "stop" in response.lower()], line 121. *)
Definition says_stop (response : option string) : bool :=
  match response with
  | None => false
  | Some r => str_truthy r && str_contains "stop" (str_lower r)
  end.

(** What the second loop does with the answer, lines 121 to 127: [true]
    when the loop is left. *)
Definition decide (original_minutes : pyfloat) (response : option string) : io bool :=
  if says_stop response then
    emit_status "Alarm stopped. Great work!" ;;
    speak_text "Okay, stopping the alarm. Have a great day!" ;;
    io_ret true
  else
    emit_status ("Continuing timer for " ++ float_str original_minutes ++ " minutes.")%string ;;
    speak_text ("Okay, continuing for another " ++ float_str original_minutes ++ " minutes.")%string ;;
    io_ret false.

(** The question after the countdown, lines 120 to 127. *)
Definition awaiting (original_minutes : pyfloat) : io bool :=
  response <- get_voice_input "Continue or stop?" ;;
  decide original_minutes response.

(** The second loop, lines 115 to 127, followed for at most [fuel] passes. *)
Fixpoint alarm_loop (fuel : nat) (original_minutes : pyfloat) : io unit :=
  match fuel with
  | O => io_unfinished
  | S k =>
      counting original_minutes ;;
      stop <- awaiting original_minutes ;;
      if stop : bool then io_ret tt else alarm_loop k original_minutes
  end.

Definition greeting_text : string :=
  "Hello! I am Concentra, your study and focus assistant. I am here to help you stay focused. Please tell me how many minutes you want to set the alarm for.".

(** [VoiceWorker.run], lines 96 to 128, each loop followed for at most
    [fuel] passes. *)
Definition run (fuel : nat) : io unit :=
  emit_status "Hello! I am Concentra. How many minutes?" ;;
  speak_text greeting_text ;;
  alarm_minutes <- collect_loop fuel ;;
  let original_minutes := alarm_minutes in
  emit_status ("Timer set for " ++ float_str original_minutes ++ " minutes.")%string ;;
  speak_text ("Okay, I will remind you in " ++ float_str original_minutes ++ " minutes.")%string ;;
  alarm_loop fuel original_minutes ;;
  io_emit Finished.

End Concentra.

(** The scripts of a capture, one for each outcome of the contract. *)
Definition listening_script : list action :=
  [Do MicOpened; Do Calibrated; Do (Status "Listening..."); Say "Listening"].

Definition script_text (prompt : string) (sound : audio) (text : string) : list action :=
  Say prompt :: listening_script ++
  [Do (Heard sound); Do MicClosed;
   Do (Status ("You said: " ++ text)%string); Say ("You said " ++ text)%string].

Definition script_timeout (prompt : string) : list action :=
  Say prompt :: listening_script ++
  [Do (Status "Listening timed out. Try again."); Do MicClosed].

Definition script_unintelligible (prompt : string) (sound : audio) : list action :=
  Say prompt :: listening_script ++
  [Do (Heard sound); Do MicClosed;
   Do (Status "Could not understand audio. Please try again.");
   Say "Sorry, I did not understand."].

Definition script_service_error (prompt : string) (sound : audio) : list action :=
  Say prompt :: listening_script ++
  [Do (Heard sound); Do MicClosed;
   Do (Status "Speech service error. Please check connection.");
   Say "Sorry, there is a problem with the speech service."].

(** The three failures of the capture contract. *)
Definition is_failed_capture (o : capture_outcome) : bool :=
  match o with
  | CapTimeout | CapUnintelligible | CapServiceError => true
  | CapText _ | CapError _ => false
  end.

(** Every event a command adds satisfies [P], however the command ends. *)
Definition emits_only {A : Type} (P : event -> Prop) (m : io A) : Prop :=
  forall (h : trace) (r : outcome A) (es : trace), m h = (r, es) -> Forall P es.

(** A sleep, if the event is one, lasts [seconds]. *)
Definition sleeps_for (seconds : pyfloat) (e : event) : Prop :=
  match e with
  | Slept x => x = seconds
  | _ => True
  end.

(** The event belongs to the dialogue: it is neither a sleep nor the
    completion signal. *)
Definition is_dialogue (e : event) : Prop :=
  match e with
  | Slept _ | Finished => False
  | _ => True
  end.

(** The utterance [u] is a valid duration of [m] minutes: [word_to_num]
    reads [m] from it and [m > 0]. *)
Definition valid_duration (w2n : string -> result pyval) (u : string) (m : pyfloat) : Prop :=
  word_to_num w2n (PyStr u) = Ok (Some m) /\ f64_gt0 m = true.

(** The utterance [u] is read, but not as a positive number. *)
Definition invalid_duration (w2n : string -> result pyval) (u : string) : Prop :=
  word_to_num w2n (PyStr u) = Ok None \/
  exists m, word_to_num w2n (PyStr u) = Ok (Some m) /\ f64_gt0 m = false.

Definition reject_script : list action :=
  [Do (Status "Invalid input. Please say a positive number.");
   Say "Invalid input. Please say a number."].

(** The scripts of the second loop. *)
Definition counting_script (original_minutes : pyfloat) : list action :=
  [Do (Slept (f64_mul_int original_minutes 60));
   Do (Status "Time's up! Say 'stop' to end.");
   Say time_is_up_text].



(** The capture that starts after the events [h] brings no valid duration:
    it fails, or its text is not read as a positive number. *)
Definition capture_rejected (w2n : string -> result pyval) (W : world) (h : trace) : Prop :=
  fst (get_voice_input W "Set alarm time in minutes" h) = Returned None \/
  exists u, fst (get_voice_input W "Set alarm time in minutes" h) = Returned (Some u) /\
            invalid_duration w2n u.

(** The scripts around the loops of [run]. *)
Definition hello_script : list action :=
  [Do (Status "Hello! I am Concentra. How many minutes?"); Say greeting_text].

Definition timer_set_script (float_str : pyfloat -> string)
    (original_minutes : pyfloat) : list action :=
  [Do (Status ("Timer set for " ++ float_str original_minutes ++ " minutes.")%string);
   Say ("Okay, I will remind you in " ++ float_str original_minutes ++ " minutes.")%string].

(** ** The window around the worker

    [GifBackgroundApp], lines 131 to 207, as far as the worker is
    concerned: the title of the window, the start button, and the slot
    [self.worker]. The signals of the worker reach the slots of the window
    in the order in which they were emitted. *)

Record shell : Type := mk_shell {
  window_title : string;
  start_button_shown : bool;
  worker_set : bool            (* [self.worker is not None] *)
}.

(** The window after [__init__], lines 132 to 138. *)
Definition initial_shell : shell := mk_shell "Concentra" true false.

(** [update_status(text)], lines 199 to 201. *)
Definition update_status (text : string) (g : shell) : shell :=
  mk_shell ("Concentra - " ++ text)%string (start_button_shown g) (worker_set g).

(** [on_assistant_finished()], lines 203 to 207. *)
Definition on_assistant_finished (g : shell) : shell :=
  mk_shell "Concentra" true false.

(** [start_voice_assistant()], lines 190 to 197, up to the start of the
    worker thread. *)
Definition start_voice_assistant (g : shell) : shell :=
  let hidden := mk_shell (window_title g) false (worker_set g) in
  let announced := update_status "Starting assistant..." hidden in
  mk_shell (window_title announced) (start_button_shown announced) true.

(** The slot an event of the worker is connected to, lines 195 and 196:
    [status_updated] to [update_status], [finished] to
    [on_assistant_finished]; the other events do not reach the window. *)
Definition deliver (g : shell) (e : event) : shell :=
  match e with
  | Status msg => update_status msg g
  | Finished => on_assistant_finished g
  | _ => g
  end.

(** The window after the events [es] of the worker have been delivered to
    it. Signals are delivered while the application lives: the events of a
    run that an exception ends are replayed up to a prefix only, never as
    the state of a window that outlives the worker. *)
Definition replay (g : shell) (es : trace) : shell := fold_left deliver es g.

(** What can happen to the window: a click on the start button, which
    only a shown button receives, or an event of the worker. *)
Inductive shell_input : Type :=
| Click
| Signal (e : event).

Definition shell_step (g : shell) (i : shell_input) : shell :=
  match i with
  | Click => if start_button_shown g then start_voice_assistant g else g
  | Signal e => deliver g e
  end.

(** The last status of a trace, if it has one. *)
Definition last_status (es : trace) : option string :=
  fold_left (fun acc e => match e with Status msg => Some msg | _ => acc end) es None.

(** ** Observations on traces *)

(** The microphone along a trace, from the state [open]: it is opened only
    when closed and closed only when open, calibration and listening happen
    only while it is open, and the program sleeps only while it is closed.
    [None] when the trace breaks one of these rules. *)
Fixpoint mic_scan (open : bool) (es : trace) : option bool :=
  match es with
  | [] => Some open
  | MicOpened :: r => if open then None else mic_scan true r
  | MicClosed :: r => if open then mic_scan false r else None
  | Calibrated :: r | Heard _ :: r => if open then mic_scan true r else None
  | Slept _ :: r => if open then None else mic_scan false r
  | _ :: r => mic_scan open r
  end.

(** A command that starts with the microphone in state [b] keeps the rules
    of [mic_scan] and leaves the microphone in state [b], however it
    ends. *)
Definition mic_keeps {A : Type} (b : bool) (m : io A) : Prop :=
  forall (h : trace) (r : outcome A) (es : trace), m h = (r, es) -> mic_scan b es = Some b.

Fixpoint count_sleeps (es : trace) : nat :=
  match es with
  | [] => O
  | Slept _ :: r => S (count_sleeps r)
  | _ :: r => count_sleeps r
  end.

(** The events before the [n]-th next pass of the first loop, when the
    events [h] came before the first of them. *)
Fixpoint before_collect_pass (w2n : string -> result pyval) (W : world)
    (n : nat) (h : trace) : trace :=
  match n with
  | O => h
  | S k => before_collect_pass w2n W k (h ++ snd (collect_iteration w2n W h))
  end.

(** One pass of the second loop: the countdown, then the question. *)
Definition alarm_pass (float_str : pyfloat -> string) (W : world)
    (original_minutes : pyfloat) : io bool :=
  counting W original_minutes ;; awaiting float_str W original_minutes.

(** The events before the [n]-th next pass of the second loop. *)
Fixpoint before_alarm_pass (float_str : pyfloat -> string) (W : world)
    (original_minutes : pyfloat) (n : nat) (h : trace) : trace :=
  match n with
  | O => h
  | S k =>
      before_alarm_pass float_str W original_minutes k
        (h ++ snd (alarm_pass float_str W original_minutes h))
  end.

(** A sample word converter that answers a number beyond the range of
    floats, to follow what [word_to_num] does with it. *)
Definition huge_w2n (s : string) : result pyval := Ok (PyInt (10 ^ 400)).

(** * Properties *)

(** ** Commands, step by step *)

Lemma bind_returned {A B : Type} (m : io A) (k : A -> io B) (h : trace)
    (a : A) (es : trace) (r : outcome B) (es' : trace) :
  m h = (Returned a, es) ->
  k a (h ++ es) = (r, es') ->
  io_bind m k h = (r, es ++ es').
Proof. intros Hm Hk. unfold io_bind. now rewrite Hm, Hk. Qed.

Lemma bind_raised {A B : Type} (m : io A) (k : A -> io B) (h : trace)
    (e : exn) (es : trace) :
  m h = (Raised e, es) -> io_bind m k h = (Raised e, es).
Proof. intros Hm. unfold io_bind. now rewrite Hm. Qed.

Lemma bind_unfinished {A B : Type} (m : io A) (k : A -> io B) (h : trace)
    (es : trace) :
  m h = (Unfinished, es) -> io_bind m k h = (Unfinished, es).
Proof. intros Hm. unfold io_bind. now rewrite Hm. Qed.

Lemma try_returned {A : Type} (body : io A)
    (handlers : list (exn_class * (exn -> io A))) (h : trace) (a : A) (es : trace) :
  body h = (Returned a, es) -> io_try body handlers h = (Returned a, es).
Proof. intros Hb. unfold io_try. now rewrite Hb. Qed.

Lemma try_caught {A : Type} (body : io A)
    (handlers : list (exn_class * (exn -> io A))) (h : trace) (e : exn)
    (es : trace) (handler : io A) (r : outcome A) (es' : trace) :
  body h = (Raised e, es) ->
  find_handler e handlers = Some handler ->
  handler (h ++ es) = (r, es') ->
  io_try body handlers h = (r, es ++ es').
Proof. intros Hb Hf Hh. unfold io_try. now rewrite Hb, Hf, Hh. Qed.

Lemma try_uncaught {A : Type} (body : io A)
    (handlers : list (exn_class * (exn -> io A))) (h : trace) (e : exn) (es : trace) :
  body h = (Raised e, es) ->
  find_handler e handlers = None ->
  io_try body handlers h = (Raised e, es).
Proof. intros Hb Hf. unfold io_try. now rewrite Hb, Hf. Qed.

Lemma with_microphone_opened {A : Type} (body : io A) (h : trace)
    (r : outcome A) (es : trace) :
  body (h ++ [MicOpened]) = (r, es) ->
  with_microphone (Ok tt) body h = (r, MicOpened :: es ++ [MicClosed]).
Proof.
  intros Hb. unfold with_microphone, io_bind, io_lift, io_ret, io_emit.
  cbn. rewrite app_nil_r, Hb. reflexivity.
Qed.

Lemma with_microphone_failed {A : Type} (body : io A) (h : trace) (e : exn) :
  with_microphone (Raise e) body h = (Raised e, []).
Proof. reflexivity. Qed.

Lemma perform_app (W : world) (s1 s2 : list action) (h : trace) :
  perform W h (s1 ++ s2) = perform W h s1 ++ perform W (h ++ perform W h s1) s2.
Proof.
  revert h. induction s1 as [|[text|e] s1 IH]; intros h; cbn [perform app].
  - now rewrite app_nil_r.
  - rewrite IH, <- app_assoc. reflexivity.
  - rewrite IH, <- app_assoc. reflexivity.
Qed.

(** ** What a command can add to the trace *)

Lemma emits_only_ret {A : Type} (P : event -> Prop) (a : A) : emits_only P (io_ret a).
Proof. intros h r es [= <- <-]. constructor. Qed.

Lemma emits_only_raise {A : Type} (P : event -> Prop) (e : exn) :
  emits_only P (@io_raise A e).
Proof. intros h r es [= <- <-]. constructor. Qed.

Lemma emits_only_unfinished {A : Type} (P : event -> Prop) :
  emits_only P (@io_unfinished A).
Proof. intros h r es [= <- <-]. constructor. Qed.

Lemma emits_only_lift {A : Type} (P : event -> Prop) (x : result A) :
  emits_only P (io_lift x).
Proof. destruct x; [apply emits_only_ret|apply emits_only_raise]. Qed.

Lemma emits_only_emit (P : event -> Prop) (e : event) :
  P e -> emits_only P (io_emit e).
Proof. intros He h r es [= <- <-]. now repeat constructor. Qed.

Lemma emits_only_bind {A B : Type} (P : event -> Prop) (m : io A) (k : A -> io B) :
  emits_only P m -> (forall a, emits_only P (k a)) -> emits_only P (io_bind m k).
Proof.
  intros Hm Hk h r es. unfold io_bind.
  destruct (m h) as [[a|e|] es1] eqn:E1; specialize (Hm _ _ _ E1).
  - destruct (k a (h ++ es1)) as [r2 es2] eqn:E2. intros [= <- <-].
    apply Forall_app. split; [exact Hm|exact (Hk _ _ _ _ E2)].
  - now intros [= <- <-].
  - now intros [= <- <-].
Qed.

Lemma find_handler_in {A : Type} (e : exn)
    (handlers : list (exn_class * (exn -> io A))) (handler : io A) :
  find_handler e handlers = Some handler ->
  exists cls f, In (cls, f) handlers /\ handler = f e.
Proof.
  induction handlers as [|[cls f] rest IH]; cbn; [discriminate|].
  destruct (is_instance cls e).
  - intros [= <-]. exists cls, f. split; [now left|reflexivity].
  - intros H. destruct (IH H) as (c & g & Hin & ->).
    exists c, g. split; [now right|reflexivity].
Qed.

Lemma emits_only_try {A : Type} (P : event -> Prop) (body : io A)
    (handlers : list (exn_class * (exn -> io A))) :
  emits_only P body ->
  (forall cls f e, In (cls, f) handlers -> emits_only P (f e)) ->
  emits_only P (io_try body handlers).
Proof.
  intros Hb Hh h r es. unfold io_try.
  destruct (body h) as [[a|e|] es1] eqn:E1; specialize (Hb _ _ _ E1).
  - now intros [= <- <-].
  - destruct (find_handler e handlers) as [handler|] eqn:Ef.
    + destruct (find_handler_in _ _ _ Ef) as (cls & f & Hin & ->).
      destruct (f e (h ++ es1)) as [r2 es2] eqn:E2. intros [= <- <-].
      apply Forall_app. split; [exact Hb|exact (Hh _ _ _ Hin _ _ _ E2)].
    + now intros [= <- <-].
  - now intros [= <- <-].
Qed.

Lemma emits_only_with_microphone {A : Type} (P : event -> Prop)
    (open : result unit) (body : io A) :
  P MicOpened -> P MicClosed -> emits_only P body ->
  emits_only P (with_microphone open body).
Proof.
  intros Ho Hc Hb. unfold with_microphone.
  apply emits_only_bind; [apply emits_only_lift|]. intros _.
  apply emits_only_bind; [now apply emits_only_emit|]. intros _.
  intros h r es. destruct (body h) as [r1 es1] eqn:E1. intros [= <- <-].
  apply Forall_app. split; [exact (Hb _ _ _ E1)|now repeat constructor].
Qed.

Lemma emits_only_weaken {A : Type} (P Q : event -> Prop) (m : io A) :
  (forall e, P e -> Q e) -> emits_only P m -> emits_only Q m.
Proof.
  intros HPQ Hm h r es E. eapply Forall_impl; [exact HPQ|exact (Hm _ _ _ E)].
Qed.

(** ** Strings: letter case and surrounding blanks *)

Ltac by_cases_on_ascii c :=
  destruct c as [[] [] [] [] [] [] [] []]; reflexivity.

Lemma is_space_lower (c : ascii) : is_space (ascii_lower c) = is_space c.
Proof. by_cases_on_ascii c. Qed.

Lemma is_digit_lower (c : ascii) : is_digit (ascii_lower c) = is_digit c.
Proof. by_cases_on_ascii c. Qed.

Lemma ascii_lower_idem (c : ascii) : ascii_lower (ascii_lower c) = ascii_lower c.
Proof. by_cases_on_ascii c. Qed.

Lemma ascii_lower_digit (c : ascii) : is_digit c = true -> ascii_lower c = c.
Proof.
  destruct c as [[] [] [] [] [] [] [] []]; intros H; try reflexivity; discriminate H.
Qed.

Lemma eqb_underscore_lower (c : ascii) :
  Ascii.eqb (ascii_lower c) "_" = Ascii.eqb c "_".
Proof. by_cases_on_ascii c. Qed.

Lemma eqb_minus_lower (c : ascii) : Ascii.eqb (ascii_lower c) "-" = Ascii.eqb c "-".
Proof. by_cases_on_ascii c. Qed.

Lemma eqb_plus_lower (c : ascii) : Ascii.eqb (ascii_lower c) "+" = Ascii.eqb c "+".
Proof. by_cases_on_ascii c. Qed.

Lemma eqb_point_lower (c : ascii) : Ascii.eqb (ascii_lower c) "." = Ascii.eqb c ".".
Proof. by_cases_on_ascii c. Qed.

Lemma is_exponent_mark_lower (c : ascii) :
  is_exponent_mark (ascii_lower c) = is_exponent_mark c.
Proof. by_cases_on_ascii c. Qed.

Lemma str_lower_idem (s : string) : str_lower (str_lower s) = str_lower s.
Proof.
  induction s as [|c s IH]; cbn; [reflexivity|].
  now rewrite ascii_lower_idem, IH.
Qed.


Lemma str_lower_empty (s : string) :
  String.eqb (str_lower s) "" = String.eqb s "".
Proof. now destruct s. Qed.

Lemma str_lstrip_lower (s : string) :
  str_lstrip (str_lower s) = str_lower (str_lstrip s).
Proof.
  induction s as [|c s IH]; cbn; [reflexivity|].
  rewrite is_space_lower. now destruct (is_space c).
Qed.

Lemma str_rstrip_lower (s : string) :
  str_rstrip (str_lower s) = str_lower (str_rstrip s).
Proof.
  induction s as [|c s IH]; cbn; [reflexivity|].
  rewrite IH, is_space_lower.
  destruct (str_rstrip s); cbn; [now destruct (is_space c)|reflexivity].
Qed.

Lemma str_strip_lower (s : string) :
  str_strip (str_lower s) = str_lower (str_strip s).
Proof. unfold str_strip. now rewrite str_lstrip_lower, str_rstrip_lower. Qed.

Lemma str_rstrip_idem (s : string) : str_rstrip (str_rstrip s) = str_rstrip s.
Proof.
  induction s as [|c s IH]; cbn; [reflexivity|].
  destruct (str_rstrip s) as [|d r] eqn:E.
  - destruct (is_space c) eqn:Hc; cbn; [reflexivity|]. now rewrite Hc.
  - cbn [str_rstrip]. cbn [str_rstrip] in IH. now rewrite IH.
Qed.

Lemma str_lstrip_clean (s : string) : starts_clean (str_lstrip s) = true.
Proof.
  induction s as [|c s IH]; cbn; [reflexivity|].
  destruct (is_space c) eqn:Hc; [exact IH|]. cbn. now rewrite Hc.
Qed.

Lemma str_lstrip_of_clean (s : string) : starts_clean s = true -> str_lstrip s = s.
Proof.
  destruct s as [|c s]; cbn; [reflexivity|].
  now destruct (is_space c).
Qed.

Lemma str_rstrip_clean (s : string) :
  starts_clean s = true -> starts_clean (str_rstrip s) = true.
Proof.
  destruct s as [|c s]; cbn; [reflexivity|]. intros Hc.
  destruct (str_rstrip s); cbn; [|exact Hc].
  destruct (is_space c) eqn:Hs; [discriminate Hc|]. cbn. now rewrite Hs.
Qed.

Lemma str_strip_idem (s : string) : str_strip (str_strip s) = str_strip s.
Proof.
  unfold str_strip.
  rewrite (str_lstrip_of_clean (str_rstrip (str_lstrip s))).
  - apply str_rstrip_idem.
  - apply str_rstrip_clean, str_lstrip_clean.
Qed.

(** ** Substrings *)





(** ** The built-in [float] ignores letter case and surrounding blanks *)

Lemma span_digits_lower (s : string) :
  span_digits (str_lower s) =
  (fst (span_digits s), str_lower (snd (span_digits s))).
Proof.
  induction s as [|c s IH]; cbn; [reflexivity|].
  rewrite is_digit_lower. destruct (is_digit c) eqn:Hd.
  - rewrite IH, (ascii_lower_digit c Hd). now destruct (span_digits s).
  - reflexivity.
Qed.

Lemma parse_sign_lower (s : string) :
  parse_sign (str_lower s) = (fst (parse_sign s), str_lower (snd (parse_sign s))).
Proof.
  destruct s as [|c s]; cbn; [reflexivity|].
  rewrite eqb_minus_lower, eqb_plus_lower.
  destruct (Ascii.eqb c "-"); [reflexivity|].
  destruct (Ascii.eqb c "+"); reflexivity.
Qed.

Lemma parse_special_lower (sg : bool) (body : string) :
  parse_special sg (str_lower body) = parse_special sg body.
Proof. unfold parse_special. now rewrite str_lower_idem. Qed.

Lemma parse_decimal_lower (sg : bool) (body : string) :
  parse_decimal sg (str_lower body) = parse_decimal sg body.
Proof.
  unfold parse_decimal. rewrite span_digits_lower.
  destruct (span_digits body) as [ip r1]. cbn [fst snd].
  assert (Hfp :
    match str_lower r1 with
    | String c r => if Ascii.eqb c "." then span_digits r else (EmptyString, str_lower r1)
    | EmptyString => (EmptyString, str_lower r1)
    end =
    let p := match r1 with
             | String c r => if Ascii.eqb c "." then span_digits r else (EmptyString, r1)
             | EmptyString => (EmptyString, r1)
             end in
    (fst p, str_lower (snd p))).
  { destruct r1 as [|c r]; cbn; [reflexivity|].
    rewrite eqb_point_lower. destruct (Ascii.eqb c "."); [|reflexivity].
    apply span_digits_lower. }
  rewrite Hfp. clear Hfp.
  destruct (match r1 with
            | String c r => if Ascii.eqb c "." then span_digits r else (EmptyString, r1)
            | EmptyString => (EmptyString, r1)
            end) as [fp r2]. cbn [fst snd].
  destruct (String.eqb ip "" && String.eqb fp ""); [reflexivity|].
  destruct r2 as [|c r]; cbn [str_lower]; [reflexivity|].
  rewrite is_exponent_mark_lower. destruct (is_exponent_mark c); [|reflexivity].
  rewrite parse_sign_lower. destruct (parse_sign r) as [es r3]. cbn [fst snd].
  rewrite span_digits_lower. destruct (span_digits r3) as [ed r4]. cbn [fst snd].
  now rewrite str_lower_empty.
Qed.

Lemma drop_underscores_lower (prev : ascii) (s : string) :
  drop_underscores (ascii_lower prev) (str_lower s) =
  option_map str_lower (drop_underscores prev s).
Proof.
  revert prev. induction s as [|c s IH]; intros prev; cbn.
  - rewrite eqb_underscore_lower. now destruct (Ascii.eqb prev "_").
  - rewrite !eqb_underscore_lower, !is_digit_lower.
    destruct (Ascii.eqb c "_").
    + destruct (is_digit prev); [apply IH|reflexivity].
    + destruct (Ascii.eqb prev "_" && negb (is_digit c)); [reflexivity|].
      rewrite IH. now destruct (drop_underscores c s).
Qed.

Lemma float_of_str_lower (s : string) : float_of_str (str_lower s) = float_of_str s.
Proof.
  unfold float_of_str. rewrite str_strip_lower.
  rewrite (drop_underscores_lower zero (str_strip s) : drop_underscores zero _ = _).
  destruct (drop_underscores zero (str_strip s)) as [u|]; cbn [option_map]; [|reflexivity].
  rewrite parse_sign_lower. destruct (parse_sign u) as [sg body]. cbn [fst snd].
  now rewrite parse_special_lower, parse_decimal_lower.
Qed.

Lemma float_of_str_strip (s : string) : float_of_str (str_strip s) = float_of_str s.
Proof. unfold float_of_str. now rewrite str_strip_idem. Qed.

(** The normalisation of [word_to_num] does not change what [float] reads. *)
Lemma float_of_str_normalized (s : string) :
  float_of_str (str_strip (str_lower s)) = float_of_str s.
Proof. now rewrite float_of_str_strip, float_of_str_lower. Qed.

(** [float] on a string raises nothing but [ValueError]. *)
Lemma float_of_str_raises (s : string) (e : exn) :
  float_of_str s = Raise e -> e = could_not_convert.
Proof.
  unfold float_of_str.
  destruct (drop_underscores zero (str_strip s)) as [u|]; [|now intros [= <-]].
  destruct (parse_sign u) as [sg body].
  destruct (parse_special sg body); [discriminate|].
  destruct (parse_decimal sg body); [discriminate|now intros [= <-]].
Qed.

Section Properties.

Variable w2n : string -> result pyval.
Variable float_str : pyfloat -> string.
Variable W : world.

(** [speak_text] returns whatever the text to speech chain does, and adds
    exactly one event. *)
Lemma speak_text_eq (text : string) (h : trace) :
  speak_text W text h = (Returned tt, [speech_event W h text]).
Proof.
  unfold speak_text, speech_event, io_try, io_bind, io_lift, io_emit.
  destruct (tts_play W h text) as [[]|e]; reflexivity.
Qed.

Ltac step_ok := eapply bind_returned; [first [apply speak_text_eq | reflexivity]|].

Ltac trace_eq :=
  unfold script_text, script_timeout, script_unintelligible, script_service_error,
         listening_script;
  cbn [perform app]; rewrite <- ?app_assoc; cbn [app]; rewrite ?app_nil_r;
  reflexivity.

(** *** The duration parser *)

Lemma word_to_num_numeral (s : string) (x : pyfloat) :
  float_of_str s = Ok x -> word_to_num w2n (PyStr s) = Ok (Some x).
Proof.
  intros H. unfold word_to_num. cbn [py_float].
  now rewrite float_of_str_normalized, H.
Qed.

Lemma word_to_num_words (s : string) (e : exn) (n : pyval) (x : pyfloat) :
  float_of_str s = Raise e ->
  w2n (str_strip (str_lower s)) = Ok n ->
  py_float n = Ok x ->
  word_to_num w2n (PyStr s) = Ok (Some x).
Proof.
  intros Hf Hw Hn. unfold word_to_num. cbn [py_float].
  rewrite float_of_str_normalized, Hf, (float_of_str_raises _ _ Hf), Hw.
  cbn. now rewrite Hn.
Qed.

Lemma word_to_num_no_number (s : string) (e e' : exn) :
  float_of_str s = Raise e ->
  w2n (str_strip (str_lower s)) = Raise e' ->
  is_instance ValueError e' = true ->
  word_to_num w2n (PyStr s) = Ok None.
Proof.
  intros Hf Hw He. unfold word_to_num. cbn [py_float].
  rewrite float_of_str_normalized, Hf, (float_of_str_raises _ _ Hf), Hw.
  cbn. cbn in He. now rewrite He.
Qed.

(** *** The guard of the first loop *)

Lemma reject_input_eq (h : trace) :
  reject_input W h = (Returned tt, perform W h reject_script).
Proof.
  unfold reject_input. etransitivity.
  { step_ok. apply speak_text_eq. }
  reflexivity.
Qed.

Lemma check_minutes_accepts (u : string) (m : pyfloat) (h : trace) :
  valid_duration w2n u m -> check_minutes w2n W u h = (Returned (Some m), []).
Proof.
  intros [Hw Hm]. unfold check_minutes, io_bind. rewrite Hw. cbn. now rewrite Hm.
Qed.

Lemma check_minutes_rejects (u : string) (h : trace) :
  invalid_duration w2n u ->
  check_minutes w2n W u h = (Returned None, perform W h reject_script).
Proof.
  intros [Hw|(m & Hw & Hm)]; unfold check_minutes.
  - etransitivity.
    { eapply bind_returned; [rewrite Hw; reflexivity|].
      cbv beta iota. eapply bind_returned; [apply reject_input_eq|reflexivity]. }
    cbn. rewrite ?app_nil_r. reflexivity.
  - etransitivity.
    { eapply bind_returned; [rewrite Hw; reflexivity|].
      cbv beta iota. rewrite Hm.
      eapply bind_returned; [apply reject_input_eq|reflexivity]. }
    cbn. rewrite ?app_nil_r. reflexivity.
Qed.

Lemma check_minutes_raises (u : string) (e : exn) (h : trace) :
  word_to_num w2n (PyStr u) = Raise e -> check_minutes w2n W u h = (Raised e, []).
Proof. intros Hw. unfold check_minutes, io_bind. now rewrite Hw. Qed.

(** The guard lets a float through exactly when it is a valid duration. *)
Lemma check_minutes_some (u : string) (m : pyfloat) (h : trace) :
  fst (check_minutes w2n W u h) = Returned (Some m) <-> valid_duration w2n u m.
Proof.
  split.
  - unfold valid_duration.
    destruct (word_to_num w2n (PyStr u)) as [[x|]|e] eqn:Hw.
    + destruct (f64_gt0 x) eqn:Hx.
      * rewrite (check_minutes_accepts u x h) by now split.
        cbn. now intros [= <-].
      * rewrite (check_minutes_rejects u h) by (right; now exists x).
        discriminate.
    + rewrite (check_minutes_rejects u h) by now left. discriminate.
    + rewrite (check_minutes_raises u e h Hw). discriminate.
  - intros H. now rewrite (check_minutes_accepts u m h H).
Qed.

(** *** The capture routine, outcome by outcome *)


Lemma listen_phase_heard (a : attempt) (h : trace) (sound : audio) :
  att_open a = Ok tt -> att_adjust a = Ok tt -> att_listen a = Ok sound ->
  listen_phase W a h =
    (Returned (Some sound),
     perform W h [Do MicOpened; Do Calibrated; Do (Status "Listening...");
                  Say "Listening"; Do (Heard sound); Do MicClosed]).
Proof.
  intros Ho Ha Hl. unfold listen_phase. rewrite Ho, Ha, Hl.
  erewrite with_microphone_opened.
  2:{ do 4 step_ok. apply try_returned. do 2 step_ok. reflexivity. }
  cbn. rewrite ?app_nil_r. reflexivity.
Qed.

Lemma listen_phase_timeout (a : attempt) (h : trace) (e : exn) :
  att_open a = Ok tt -> att_adjust a = Ok tt -> att_listen a = Raise e ->
  is_instance WaitTimeoutError e = true ->
  listen_phase W a h =
    (Returned None,
     perform W h [Do MicOpened; Do Calibrated; Do (Status "Listening...");
                  Say "Listening"; Do (Status "Listening timed out. Try again.");
                  Do MicClosed]).
Proof.
  intros Ho Ha Hl He. unfold listen_phase. rewrite Ho, Ha, Hl.
  erewrite with_microphone_opened.
  2:{ do 4 step_ok. eapply try_caught.
      - reflexivity.
      - cbn [find_handler]. rewrite He. reflexivity.
      - step_ok. reflexivity. }
  cbn. rewrite ?app_nil_r. reflexivity.
Qed.

(** An exception of the listening phase that is no timeout leaves
    [listen_phase] as it is, and no status reports it. *)
Lemma listen_phase_raises (a : attempt) (h : trace) (e : exn) :
  match att_open a with
  | Raise e0 => e0 = e
  | Ok _ =>
      match att_adjust a with
      | Raise e1 => e1 = e
      | Ok _ => att_listen a = Raise e /\ is_instance WaitTimeoutError e = false
      end
  end ->
  fst (listen_phase W a h) = Raised e /\
  forall msg, In (Status msg) (snd (listen_phase W a h)) -> msg = "Listening...".
Proof.
  unfold listen_phase. intros H.
  destruct (att_open a) as [[]|e0].
  2:{ subst e0. rewrite with_microphone_failed. split; [reflexivity|]. intros msg []. }
  destruct (att_adjust a) as [[]|e1].
  2:{ subst e1. erewrite with_microphone_opened by reflexivity.
      split; [reflexivity|]. cbn. intros msg [Hm|[Hm|[]]]; discriminate. }
  destruct H as [Hl He]. rewrite Hl.
  erewrite with_microphone_opened.
  2:{ do 4 step_ok. eapply try_uncaught.
      - reflexivity.
      - cbn [find_handler]. rewrite He. reflexivity. }
  split; [reflexivity|]. cbn.
  intros msg [Hm|[Hm|[Hm|[Hm|[Hm|[]]]]]]; try discriminate.
  - now injection Hm as <-.
  - unfold speech_event in Hm. destruct (tts_play W _ _); discriminate.
Qed.

Lemma recognize_phase_text (a : attempt) (sound : audio) (h : trace) (text : string) :
  att_recognize a sound = Ok text ->
  recognize_phase W a sound h =
    (Returned (Some text),
     perform W h [Do (Status ("You said: " ++ text)%string);
                  Say ("You said " ++ text)%string]).
Proof.
  intros Hr. unfold recognize_phase. rewrite Hr.
  erewrite try_returned.
  2:{ do 3 step_ok. reflexivity. }
  cbn. rewrite ?app_nil_r. reflexivity.
Qed.

Lemma recognize_phase_unintelligible (a : attempt) (sound : audio) (h : trace) (e : exn) :
  att_recognize a sound = Raise e ->
  is_instance UnknownValueError e = true ->
  recognize_phase W a sound h =
    (Returned None,
     perform W h [Do (Status "Could not understand audio. Please try again.");
                  Say "Sorry, I did not understand."]).
Proof.
  intros Hr He. unfold recognize_phase. rewrite Hr.
  erewrite try_caught.
  2:{ reflexivity. }
  2:{ cbn [find_handler]. rewrite He. reflexivity. }
  2:{ do 2 step_ok. reflexivity. }
  cbn. rewrite ?app_nil_r. reflexivity.
Qed.

Lemma recognize_phase_service_error (a : attempt) (sound : audio) (h : trace) (e : exn) :
  att_recognize a sound = Raise e ->
  is_instance UnknownValueError e = false ->
  is_instance RequestError e = true ->
  recognize_phase W a sound h =
    (Returned None,
     perform W h [Do (Status "Speech service error. Please check connection.");
                  Say "Sorry, there is a problem with the speech service."]).
Proof.
  intros Hr Hu He. unfold recognize_phase. rewrite Hr.
  erewrite try_caught.
  2:{ reflexivity. }
  2:{ cbn [find_handler]. rewrite Hu, He. reflexivity. }
  2:{ do 2 step_ok. reflexivity. }
  cbn. rewrite ?app_nil_r. reflexivity.
Qed.

Lemma recognize_phase_raises (a : attempt) (sound : audio) (h : trace) (e : exn) :
  att_recognize a sound = Raise e ->
  is_instance UnknownValueError e = false ->
  is_instance RequestError e = false ->
  recognize_phase W a sound h = (Raised e, []).
Proof.
  intros Hr Hu He. unfold recognize_phase. rewrite Hr.
  erewrite try_uncaught.
  - reflexivity.
  - reflexivity.
  - cbn [find_handler]. rewrite Hu, He. reflexivity.
Qed.

Lemma classify_text (a : attempt) (text : string) :
  classify a = CapText text ->
  exists sound, att_open a = Ok tt /\ att_adjust a = Ok tt /\
    att_listen a = Ok sound /\ att_recognize a sound = Ok text.
Proof.
  unfold classify, classify_recognition.
  destruct (att_open a) as [[]|?]; [|discriminate].
  destruct (att_adjust a) as [[]|?]; [|discriminate].
  destruct (att_listen a) as [sound|e]; [|destruct (is_instance _ e); discriminate].
  destruct (att_recognize a sound) as [t|e] eqn:Hr.
  - intros [= ->]. now exists sound.
  - destruct (is_instance UnknownValueError e); [discriminate|].
    destruct (is_instance RequestError e); discriminate.
Qed.

Lemma classify_timeout (a : attempt) :
  classify a = CapTimeout ->
  exists e, att_open a = Ok tt /\ att_adjust a = Ok tt /\
    att_listen a = Raise e /\ is_instance WaitTimeoutError e = true.
Proof.
  unfold classify, classify_recognition.
  destruct (att_open a) as [[]|?]; [|discriminate].
  destruct (att_adjust a) as [[]|?]; [|discriminate].
  destruct (att_listen a) as [sound|e].
  - destruct (att_recognize a sound) as [t|e]; [discriminate|].
    destruct (is_instance UnknownValueError e); [discriminate|].
    destruct (is_instance RequestError e); discriminate.
  - destruct (is_instance WaitTimeoutError e) eqn:He; [|discriminate].
    intros _. now exists e.
Qed.

Lemma classify_unintelligible (a : attempt) :
  classify a = CapUnintelligible ->
  exists sound e, att_open a = Ok tt /\ att_adjust a = Ok tt /\
    att_listen a = Ok sound /\ att_recognize a sound = Raise e /\
    is_instance UnknownValueError e = true.
Proof.
  unfold classify, classify_recognition.
  destruct (att_open a) as [[]|?]; [|discriminate].
  destruct (att_adjust a) as [[]|?]; [|discriminate].
  destruct (att_listen a) as [sound|e]; [|destruct (is_instance _ e); discriminate].
  destruct (att_recognize a sound) as [t|e] eqn:Hr; [discriminate|].
  destruct (is_instance UnknownValueError e) eqn:Hu.
  - intros _. now exists sound, e.
  - destruct (is_instance RequestError e); discriminate.
Qed.

Lemma classify_service_error (a : attempt) :
  classify a = CapServiceError ->
  exists sound e, att_open a = Ok tt /\ att_adjust a = Ok tt /\
    att_listen a = Ok sound /\ att_recognize a sound = Raise e /\
    is_instance UnknownValueError e = false /\ is_instance RequestError e = true.
Proof.
  unfold classify, classify_recognition.
  destruct (att_open a) as [[]|?]; [|discriminate].
  destruct (att_adjust a) as [[]|?]; [|discriminate].
  destruct (att_listen a) as [sound|e]; [|destruct (is_instance _ e); discriminate].
  destruct (att_recognize a sound) as [t|e] eqn:Hr; [discriminate|].
  destruct (is_instance UnknownValueError e) eqn:Hu; [discriminate|].
  destruct (is_instance RequestError e) eqn:He; [|discriminate].
  intros _. now exists sound, e.
Qed.

Lemma capture_with_text (a : attempt) (prompt : string) (h : trace) (text : string) :
  classify a = CapText text ->
  exists sound,
    capture_with W a prompt h =
      (Returned (Some text), perform W h (script_text prompt sound text)).
Proof.
  intros Hc. destruct (classify_text _ _ Hc) as (sound & Ho & Ha & Hl & Hr).
  exists sound. unfold capture_with. etransitivity.
  { step_ok. eapply bind_returned.
    - exact (listen_phase_heard a _ sound Ho Ha Hl).
    - cbv beta iota. exact (recognize_phase_text a sound _ text Hr). }
  trace_eq.
Qed.

Lemma capture_with_timeout (a : attempt) (prompt : string) (h : trace) :
  classify a = CapTimeout ->
  capture_with W a prompt h = (Returned None, perform W h (script_timeout prompt)).
Proof.
  intros Hc. destruct (classify_timeout _ Hc) as (e & Ho & Ha & Hl & He).
  unfold capture_with. etransitivity.
  { step_ok. eapply bind_returned.
    - exact (listen_phase_timeout a _ e Ho Ha Hl He).
    - reflexivity. }
  trace_eq.
Qed.

Lemma capture_with_unintelligible (a : attempt) (prompt : string) (h : trace) :
  classify a = CapUnintelligible ->
  exists sound,
    capture_with W a prompt h =
      (Returned None, perform W h (script_unintelligible prompt sound)).
Proof.
  intros Hc.
  destruct (classify_unintelligible _ Hc) as (sound & e & Ho & Ha & Hl & Hr & He).
  exists sound. unfold capture_with. etransitivity.
  { step_ok. eapply bind_returned.
    - exact (listen_phase_heard a _ sound Ho Ha Hl).
    - cbv beta iota. exact (recognize_phase_unintelligible a sound _ e Hr He). }
  trace_eq.
Qed.

Lemma capture_with_service_error (a : attempt) (prompt : string) (h : trace) :
  classify a = CapServiceError ->
  exists sound,
    capture_with W a prompt h =
      (Returned None, perform W h (script_service_error prompt sound)).
Proof.
  intros Hc.
  destruct (classify_service_error _ Hc) as (sound & e & Ho & Ha & Hl & Hr & Hu & He).
  exists sound. unfold capture_with. etransitivity.
  { step_ok. eapply bind_returned.
    - exact (listen_phase_heard a _ sound Ho Ha Hl).
    - cbv beta iota. exact (recognize_phase_service_error a sound _ e Hr Hu He). }
  trace_eq.
Qed.

(** An error outside the capture contract leaves [capture_with] as an
    exception; the only status sent before it is the listening notice. *)
Lemma capture_with_error (a : attempt) (prompt : string) (h : trace) (e : exn) :
  classify a = CapError e ->
  fst (capture_with W a prompt h) = Raised e /\
  forall msg, In (Status msg) (snd (capture_with W a prompt h)) -> msg = "Listening...".
Proof.
  unfold classify, classify_recognition. intros Hc. unfold capture_with.
  assert (Hsp : forall msg t h', Status msg <> speech_event W h' t).
  { intros msg t h'. unfold speech_event. destruct (tts_play W h' t); discriminate. }
  destruct (att_listen a) as [sound|e2] eqn:Hl.
  - destruct (att_open a) as [[]|e0] eqn:Ho;
      [destruct (att_adjust a) as [[]|e1] eqn:Ha|].
    + destruct (att_recognize a sound) as [t|e3] eqn:Hr; [discriminate|].
      destruct (is_instance UnknownValueError e3) eqn:Hu; [discriminate|].
      destruct (is_instance RequestError e3) eqn:He; [discriminate|].
      injection Hc as ->.
      erewrite bind_returned; [|apply speak_text_eq|].
      2:{ eapply bind_returned.
          - exact (listen_phase_heard a _ sound Ho Ha Hl).
          - cbv beta iota. exact (recognize_phase_raises a sound _ e Hr Hu He). }
      split; [reflexivity|]. cbn.
      intros msg [Hm|[Hm|[Hm|[Hm|[Hm|[Hm|[Hm|[]]]]]]]]; try discriminate;
        try (now injection Hm as <-); symmetry in Hm; now apply Hsp in Hm.
    + injection Hc as ->.
      destruct (listen_phase_raises a (h ++ [speech_event W h prompt]) e) as [H1 H2].
      { now rewrite Ho, Ha. }
      rewrite (surjective_pairing (listen_phase W a _)) in H1. cbn in H1.
      erewrite bind_returned; [|apply speak_text_eq|].
      2:{ eapply bind_raised. rewrite (surjective_pairing (listen_phase W a _)).
          rewrite H1. reflexivity. }
      split; [reflexivity|]. cbn.
      intros msg [Hm|Hm]; [symmetry in Hm; now apply Hsp in Hm|now apply H2].
    + injection Hc as ->.
      destruct (listen_phase_raises a (h ++ [speech_event W h prompt]) e) as [H1 H2].
      { now rewrite Ho. }
      erewrite bind_returned; [|apply speak_text_eq|].
      2:{ eapply bind_raised. rewrite (surjective_pairing (listen_phase W a _)).
          rewrite H1. reflexivity. }
      split; [reflexivity|]. cbn.
      intros msg [Hm|Hm]; [symmetry in Hm; now apply Hsp in Hm|now apply H2].
  - destruct (att_open a) as [[]|e0] eqn:Ho;
      [destruct (att_adjust a) as [[]|e1] eqn:Ha|].
    + destruct (is_instance WaitTimeoutError e2) eqn:He; [discriminate|].
      injection Hc as ->.
      destruct (listen_phase_raises a (h ++ [speech_event W h prompt]) e) as [H1 H2].
      { now rewrite Ho, Ha. }
      erewrite bind_returned; [|apply speak_text_eq|].
      2:{ eapply bind_raised. rewrite (surjective_pairing (listen_phase W a _)).
          rewrite H1. reflexivity. }
      split; [reflexivity|]. cbn.
      intros msg [Hm|Hm]; [symmetry in Hm; now apply Hsp in Hm|now apply H2].
    + injection Hc as ->.
      destruct (listen_phase_raises a (h ++ [speech_event W h prompt]) e) as [H1 H2].
      { now rewrite Ho, Ha. }
      erewrite bind_returned; [|apply speak_text_eq|].
      2:{ eapply bind_raised. rewrite (surjective_pairing (listen_phase W a _)).
          rewrite H1. reflexivity. }
      split; [reflexivity|]. cbn.
      intros msg [Hm|Hm]; [symmetry in Hm; now apply Hsp in Hm|now apply H2].
    + injection Hc as ->.
      destruct (listen_phase_raises a (h ++ [speech_event W h prompt]) e) as [H1 H2].
      { now rewrite Ho. }
      erewrite bind_returned; [|apply speak_text_eq|].
      2:{ eapply bind_raised. rewrite (surjective_pairing (listen_phase W a _)).
          rewrite H1. reflexivity. }
      split; [reflexivity|]. cbn.
      intros msg [Hm|Hm]; [symmetry in Hm; now apply Hsp in Hm|now apply H2].
Qed.

(** *** Only the countdown sleeps, only the end of [run] signals completion *)

Lemma speech_event_dialogue (h : trace) (text : string) :
  is_dialogue (speech_event W h text).
Proof. unfold speech_event. now destruct (tts_play W h text). Qed.

Lemma speak_text_dialogue (text : string) : emits_only is_dialogue (speak_text W text).
Proof.
  intros h r es. rewrite speak_text_eq. intros [= <- <-].
  constructor; [apply speech_event_dialogue|constructor].
Qed.

Lemma emit_status_dialogue (msg : string) : emits_only is_dialogue (emit_status msg).
Proof. now apply emits_only_emit. Qed.

Ltac handlers_in Hin :=
  cbn in Hin;
  repeat match type of Hin with
         | _ \/ _ => destruct Hin as [Hin|Hin]
         | False => destruct Hin
         | _ = _ => injection Hin as <- <-
         end.

Ltac dialogue :=
  repeat first
    [ apply speak_text_dialogue
    | apply emit_status_dialogue
    | apply emits_only_ret
    | apply emits_only_lift
    | apply emits_only_emit; exact I
    | apply emits_only_with_microphone; [exact I|exact I|]
    | apply emits_only_try; [|intros ? ? ? Hin; handlers_in Hin]
    | apply emits_only_bind; [|intros ?] ].

Lemma capture_with_dialogue (a : attempt) (prompt : string) :
  emits_only is_dialogue (capture_with W a prompt).
Proof.
  unfold capture_with, listen_phase.
  apply emits_only_bind; [apply speak_text_dialogue|]. intros _.
  apply emits_only_bind; [dialogue|].
  intros [sound|]; [|apply emits_only_ret].
  unfold recognize_phase. dialogue.
Qed.

Lemma get_voice_input_dialogue (prompt : string) :
  emits_only is_dialogue (get_voice_input W prompt).
Proof. intros h r es E. exact (capture_with_dialogue _ _ _ _ _ E). Qed.

Lemma check_minutes_dialogue (u : string) :
  emits_only is_dialogue (check_minutes w2n W u).
Proof.
  unfold check_minutes, reject_input.
  apply emits_only_bind; [apply emits_only_lift|].
  intros [m|]; [destruct (f64_gt0 m)|]; dialogue.
Qed.

Lemma collect_iteration_dialogue : emits_only is_dialogue (collect_iteration w2n W).
Proof.
  unfold collect_iteration.
  apply emits_only_bind; [apply get_voice_input_dialogue|].
  intros [u|]; [apply check_minutes_dialogue|apply emits_only_ret].
Qed.

Lemma collect_loop_dialogue (fuel : nat) :
  emits_only is_dialogue (collect_loop w2n W fuel).
Proof.
  induction fuel as [|k IH]; cbn [collect_loop]; [apply emits_only_unfinished|].
  apply emits_only_bind; [apply collect_iteration_dialogue|].
  intros [m|]; [apply emits_only_ret|exact IH].
Qed.

Lemma decide_dialogue (m : pyfloat) (response : option string) :
  emits_only is_dialogue (decide float_str W m response).
Proof. unfold decide. destruct (says_stop response); dialogue. Qed.

Lemma awaiting_dialogue (m : pyfloat) :
  emits_only is_dialogue (awaiting float_str W m).
Proof.
  unfold awaiting.
  apply emits_only_bind; [apply get_voice_input_dialogue|].
  intros response. apply decide_dialogue.
Qed.

Lemma dialogue_sleeps_for (seconds : pyfloat) (e : event) :
  is_dialogue e -> sleeps_for seconds e.
Proof. now destruct e. Qed.

Lemma counting_sleeps (m : pyfloat) :
  emits_only (sleeps_for (f64_mul_int m 60)) (counting W m).
Proof.
  unfold counting, time_sleep.
  apply emits_only_bind.
  { apply emits_only_bind; [apply emits_only_lift|].
    intros _. now apply emits_only_emit. }
  intros _.
  apply (emits_only_weaken is_dialogue); [apply dialogue_sleeps_for|]. dialogue.
Qed.

Lemma alarm_loop_sleeps (fuel : nat) (m : pyfloat) :
  emits_only (sleeps_for (f64_mul_int m 60)) (alarm_loop float_str W fuel m).
Proof.
  induction fuel as [|k IH]; cbn [alarm_loop]; [apply emits_only_unfinished|].
  apply emits_only_bind; [apply counting_sleeps|]. intros _.
  apply emits_only_bind.
  - apply (emits_only_weaken is_dialogue); [apply dialogue_sleeps_for|].
    apply awaiting_dialogue.
  - intros [|]; [apply emits_only_ret|exact IH].
Qed.

(** *** The first loop *)

Lemma collect_iteration_some (h : trace) (m : pyfloat) :
  fst (collect_iteration w2n W h) = Returned (Some m) <->
  exists u, fst (get_voice_input W "Set alarm time in minutes" h) = Returned (Some u) /\
            valid_duration w2n u m.
Proof.
  unfold collect_iteration, io_bind.
  destruct (get_voice_input W "Set alarm time in minutes" h) as [[[u|]|e|] es]; cbn [fst].
  - destruct (check_minutes w2n W u (h ++ es)) as [r' es'] eqn:E.
    cbn [fst]. pose proof (check_minutes_some u m (h ++ es)) as Hc.
    rewrite E in Hc. cbn [fst] in Hc. rewrite Hc. split.
    + intros Hv. now exists u.
    + now intros (u' & [= <-] & Hv).
  - split; [discriminate|now intros (u & [= ] & _)].
  - split; [discriminate|now intros (u & [= ] & _)].
  - split; [discriminate|now intros (u & [= ] & _)].
Qed.

Lemma collect_iteration_rejected (h : trace) :
  capture_rejected w2n W h -> fst (collect_iteration w2n W h) = Returned None.
Proof.
  unfold capture_rejected, collect_iteration, io_bind.
  destruct (get_voice_input W "Set alarm time in minutes" h) as [[[u|]|e|] es]; cbn [fst].
  - intros [[=]|(u' & [= <-] & Hu)].
    now rewrite (check_minutes_rejects u (h ++ es) Hu).
  - reflexivity.
  - intros [[=]|(u' & [=] & _)].
  - intros [[=]|(u' & [=] & _)].
Qed.

(** One more pass: the loop is left with the valid duration of this pass,
    or goes round again after a rejected capture. *)
Lemma collect_loop_step (k : nat) (h : trace) :
  collect_loop w2n W (S k) h =
  match collect_iteration w2n W h with
  | (Returned (Some m), es) => (Returned m, es)
  | (Returned None, es) =>
      (fst (collect_loop w2n W k (h ++ es)), es ++ snd (collect_loop w2n W k (h ++ es)))
  | (Raised e, es) => (Raised e, es)
  | (Unfinished, es) => (Unfinished, es)
  end.
Proof.
  cbn [collect_loop]. unfold io_bind.
  destruct (collect_iteration w2n W h) as [[[m|]|e|] es]; try reflexivity.
  - cbn. now rewrite app_nil_r.
  - now destruct (collect_loop w2n W k (h ++ es)).
Qed.

Lemma collect_loop_returns (fuel : nat) (h : trace) (m : pyfloat) :
  fst (collect_loop w2n W fuel h) = Returned m ->
  exists h' u, fst (get_voice_input W "Set alarm time in minutes" h') = Returned (Some u) /\
               valid_duration w2n u m.
Proof.
  revert h. induction fuel as [|k IH]; intros h; [discriminate|].
  rewrite collect_loop_step.
  destruct (collect_iteration w2n W h) as [[[x|]|e|] es] eqn:E; cbn [fst];
    try discriminate.
  - intros [= ->]. exists h. apply collect_iteration_some. now rewrite E.
  - apply IH.
Qed.

Lemma collect_loop_never_leaves (fuel : nat) (h : trace) :
  (forall h', capture_rejected w2n W h') ->
  fst (collect_loop w2n W fuel h) = Unfinished.
Proof.
  intros Hall. revert h. induction fuel as [|k IH]; intros h; [reflexivity|].
  rewrite collect_loop_step. pose proof (collect_iteration_rejected h (Hall h)) as Hr.
  destruct (collect_iteration w2n W h) as [r es]. cbn [fst] in Hr. subst r.
  cbn [fst]. apply IH.
Qed.

(** A float that passes [minutes > 0] is not NaN, not a zero and not
    negative. *)
Lemma f64_gt0_excludes (m : pyfloat) :
  f64_gt0 m = true ->
  m <> S754_nan /\ (forall s, m <> S754_zero s) /\
  (forall mant ex, m <> S754_finite true mant ex) /\ m <> S754_infinity true.
Proof.
  intros Hm. repeat split; intros; intros ->; cbn in Hm;
    try discriminate; now destruct s.
Qed.

(** A pass on an utterance on which [word_to_num] raises ends with that
    exception, right after the capture. *)
Lemma collect_iteration_raises (h : trace) (u : string) (e : exn) :
  fst (get_voice_input W "Set alarm time in minutes" h) = Returned (Some u) ->
  word_to_num w2n (PyStr u) = Raise e ->
  collect_iteration w2n W h =
    (Raised e, snd (get_voice_input W "Set alarm time in minutes" h)).
Proof.
  intros Hg Hw. unfold collect_iteration, io_bind.
  destruct (get_voice_input W "Set alarm time in minutes" h) as [r es].
  cbn [fst] in Hg. subst r. cbn [snd].
  rewrite (check_minutes_raises u e _ Hw). now rewrite app_nil_r.
Qed.

(** *** The second loop *)

Lemma time_sleep_accepted (seconds : pyfloat) (h : trace) :
  sleep_argument seconds = Ok tt ->
  time_sleep seconds h = (Returned tt, [Slept seconds]).
Proof. intros Hs. unfold time_sleep, io_bind. now rewrite Hs. Qed.

Lemma time_sleep_refused (seconds : pyfloat) (e : exn) (h : trace) :
  sleep_argument seconds = Raise e -> time_sleep seconds h = (Raised e, []).
Proof. intros Hs. unfold time_sleep, io_bind. now rewrite Hs. Qed.

(** The countdown whose length the clock accepts. *)
Lemma counting_eq (m : pyfloat) (h : trace) :
  sleep_argument (f64_mul_int m 60) = Ok tt ->
  counting W m h = (Returned tt, perform W h (counting_script m)).
Proof.
  intros Hs. unfold counting. etransitivity.
  { eapply bind_returned; [now apply time_sleep_accepted|].
    step_ok. apply speak_text_eq. }
  reflexivity.
Qed.

(** The countdown whose length the clock refuses. *)
Lemma counting_refused (m : pyfloat) (e : exn) (h : trace) :
  sleep_argument (f64_mul_int m 60) = Raise e ->
  counting W m h = (Raised e, []).
Proof.
  intros Hs. unfold counting. apply bind_raised. now apply time_sleep_refused.
Qed.

(** The countdown ends in one of these two ways. *)
Lemma counting_cases (m : pyfloat) (h : trace) :
  (sleep_argument (f64_mul_int m 60) = Ok tt /\
   counting W m h = (Returned tt, perform W h (counting_script m))) \/
  (exists e, sleep_argument (f64_mul_int m 60) = Raise e /\
             counting W m h = (Raised e, [])).
Proof.
  destruct (sleep_argument (f64_mul_int m 60)) as [[]|e] eqn:Hs.
  - left. split; [reflexivity|now apply counting_eq].
  - right. exists e. split; [reflexivity|now apply counting_refused].
Qed.





Lemma awaiting_raises (m : pyfloat) (h : trace) (e : exn) (es : trace) :
  get_voice_input W "Continue or stop?" h = (Raised e, es) ->
  awaiting float_str W m h = (Raised e, es).
Proof. intros Hg. unfold awaiting. now apply bind_raised. Qed.

Lemma get_voice_input_finishes (prompt : string) (h : trace) :
  fst (get_voice_input W prompt h) <> Unfinished.
Proof.
  unfold get_voice_input.
  destruct (classify (next_attempt W h)) as [text| | | |e] eqn:Hc.
  - destruct (capture_with_text _ prompt h _ Hc) as [sound ->]. discriminate.
  - rewrite (capture_with_timeout _ prompt h Hc). discriminate.
  - destruct (capture_with_unintelligible _ prompt h Hc) as [sound ->]. discriminate.
  - destruct (capture_with_service_error _ prompt h Hc) as [sound ->]. discriminate.
  - destruct (capture_with_error _ prompt h e Hc) as [-> _]. discriminate.
Qed.

(** One more pass of the second loop, when the clock accepts the length
    of the countdown. *)
Lemma alarm_loop_step (k : nat) (m : pyfloat) (h : trace) :
  sleep_argument (f64_mul_int m 60) = Ok tt ->
  alarm_loop float_str W (S k) m h =
  let cs := perform W h (counting_script m) in
  match awaiting float_str W m (h ++ cs) with
  | (Returned true, es) => (Returned tt, cs ++ es)
  | (Returned false, es) =>
      (fst (alarm_loop float_str W k m (h ++ cs ++ es)),
       cs ++ es ++ snd (alarm_loop float_str W k m (h ++ cs ++ es)))
  | (Raised e, es) => (Raised e, cs ++ es)
  | (Unfinished, es) => (Unfinished, cs ++ es)
  end.
Proof.
  intros Hs.
  cbn [alarm_loop]. unfold io_bind at 1. rewrite (counting_eq m h Hs).
  cbv zeta. unfold io_bind.
  destruct (awaiting float_str W m (h ++ perform W h (counting_script m)))
    as [[[|]|e|] es]; try reflexivity.
  - cbn. now rewrite app_nil_r.
  - rewrite <- app_assoc.
    now destruct (alarm_loop float_str W k m _).
Qed.

(** The second loop when the clock refuses the length of the countdown:
    the exception of [time.sleep] leaves the loop before anything else
    happens. *)
Lemma alarm_loop_refused (k : nat) (m : pyfloat) (e : exn) (h : trace) :
  sleep_argument (f64_mul_int m 60) = Raise e ->
  alarm_loop float_str W (S k) m h = (Raised e, []).
Proof.
  intros Hs. cbn [alarm_loop]. apply bind_raised. now apply counting_refused.
Qed.

(** The ways in which a pass of the first loop can go. *)
Lemma collect_pass_cases (h : trace) :
  capture_rejected w2n W h \/
  (exists u m, fst (get_voice_input W "Set alarm time in minutes" h)
                 = Returned (Some u) /\ valid_duration w2n u m) \/
  (exists u e, fst (get_voice_input W "Set alarm time in minutes" h)
                 = Returned (Some u) /\ word_to_num w2n (PyStr u) = Raise e) \/
  (exists e, fst (get_voice_input W "Set alarm time in minutes" h) = Raised e).
Proof.
  unfold capture_rejected, invalid_duration, valid_duration.
  pose proof (get_voice_input_finishes "Set alarm time in minutes" h) as Hfin.
  destruct (get_voice_input W "Set alarm time in minutes" h) as [[[u|]|e|] es];
    cbn [fst] in *.
  - destruct (word_to_num w2n (PyStr u)) as [[m|]|e] eqn:Hw.
    + destruct (f64_gt0 m) eqn:Hm.
      * right. left. exists u, m. now rewrite Hw.
      * left. right. exists u. split; [reflexivity|]. right. now exists m.
    + left. right. exists u. split; [reflexivity|]. now left.
    + right. right. left. exists u, e. now rewrite Hw.
  - left. now left.
  - do 3 right. now exists e.
  - now contradiction Hfin.
Qed.

(** *** The whole of [run] *)

Lemma run_eq (fuel : nat) (h : trace) :
  run w2n float_str W fuel h =
  let hello := perform W h hello_script in
  match collect_loop w2n W fuel (h ++ hello) with
  | (Returned m, es1) =>
      let set := perform W (h ++ hello ++ es1) (timer_set_script float_str m) in
      match alarm_loop float_str W fuel m (h ++ hello ++ es1 ++ set) with
      | (Returned _, es2) => (Returned tt, hello ++ es1 ++ set ++ es2 ++ [Finished])
      | (Raised e, es2) => (Raised e, hello ++ es1 ++ set ++ es2)
      | (Unfinished, es2) => (Unfinished, hello ++ es1 ++ set ++ es2)
      end
  | (Raised e, es1) => (Raised e, hello ++ es1)
  | (Unfinished, es1) => (Unfinished, hello ++ es1)
  end.
Proof.
  unfold run, emit_status. unfold io_bind at 1 2. unfold io_emit at 1.
  rewrite speak_text_eq. cbv zeta. cbn [hello_script perform app].
  unfold io_bind at 1.
  rewrite <- !app_assoc. cbn [app].
  destruct (collect_loop w2n W fuel _) as [[m|e|] es1]; try reflexivity.
  unfold io_bind at 1 2. unfold io_emit at 1. rewrite speak_text_eq.
  cbn [timer_set_script perform app]. unfold io_bind, io_emit.
  rewrite <- !app_assoc. cbn [app].
  destruct (alarm_loop float_str W fuel m _) as [[[]|e|] es2]; reflexivity.
Qed.

Lemma perform_forall (P : event -> Prop) (script : list action) (h : trace) :
  (forall h' text, P (speech_event W h' text)) ->
  (forall e, In (Do e) script -> P e) ->
  Forall P (perform W h script).
Proof.
  intros Hs. revert h. induction script as [|[text|e] rest IH]; intros h Hd;
    cbn [perform]; constructor.
  - apply Hs.
  - apply IH. intros e He. apply Hd. now right.
  - apply Hd. now left.
  - apply IH. intros e' He. apply Hd. now right.
Qed.

Lemma perform_dialogue (script : list action) (h : trace) :
  (forall e, In (Do e) script -> is_dialogue e) ->
  Forall is_dialogue (perform W h script).
Proof. apply perform_forall. intros h' text. apply speech_event_dialogue. Qed.




(** ** The claims about the duration parser *)


(** C6. A string that [float] reads comes back as that very float,
    whatever the word converter would have said, so the converter is not
    consulted; letter case and surrounding blanks do not matter. A string
    that [float] does not read is lowered and trimmed and handed to the
    word converter, and the number found there comes back as a float. *)
Theorem word_to_num_numerals_then_words (s : string) :
  (forall x, float_of_str s = Ok x ->
     forall any_w2n, word_to_num any_w2n (PyStr s) = Ok (Some x)) /\
  (forall e n x, float_of_str s = Raise e ->
     w2n (str_strip (str_lower s)) = Ok n ->
     py_float n = Ok x ->
     word_to_num w2n (PyStr s) = Ok (Some x)).
Proof.
  split.
  - intros x Hx any_w2n. unfold word_to_num. cbn [py_float].
    now rewrite float_of_str_normalized, Hx.
  - intros e n x. apply word_to_num_words.
Qed.

(** C1, amended. A string that is no number (neither [float] nor the word
    converter reads it) makes [word_to_num] return [None]. A numeral that
    is zero or negative comes back as its float, not as [None]; it is the
    guard of the loop, [minutes is not None and minutes > 0], that refuses
    it, with the same message and the same new prompt as for [None]. *)
Theorem invalid_durations_are_refused (s : string) (h : trace) :
  (forall e e', float_of_str s = Raise e ->
     w2n (str_strip (str_lower s)) = Raise e' ->
     is_instance ValueError e' = true ->
     word_to_num w2n (PyStr s) = Ok None) /\
  (forall x, float_of_str s = Ok x -> f64_gt0 x = false ->
     word_to_num w2n (PyStr s) = Ok (Some x)) /\
  (invalid_duration w2n s ->
     check_minutes w2n W s h = (Returned None, perform W h reject_script)).
Proof.
  split; [|split].
  - apply word_to_num_no_number.
  - intros x Hx _. now apply word_to_num_numeral.
  - apply check_minutes_rejects.
Qed.

(** ** The claims about the capture *)

(** C10, amended. A capture whose collaborators answer within the contract
    returns the text, or [None]: timeout, unintelligible speech and service
    error all give [None]. The three differ in the status they send and in
    the apology they speak (none after a timeout). An error outside the
    contract is raised to the caller. *)
Theorem get_voice_input_outcomes (prompt : string) (h : trace) :
  match classify (next_attempt W h) with
  | CapText text =>
      exists sound,
        get_voice_input W prompt h =
          (Returned (Some text), perform W h (script_text prompt sound text))
  | CapTimeout =>
      get_voice_input W prompt h =
        (Returned None, perform W h (script_timeout prompt))
  | CapUnintelligible =>
      exists sound,
        get_voice_input W prompt h =
          (Returned None, perform W h (script_unintelligible prompt sound))
  | CapServiceError =>
      exists sound,
        get_voice_input W prompt h =
          (Returned None, perform W h (script_service_error prompt sound))
  | CapError e => fst (get_voice_input W prompt h) = Raised e
  end.
Proof.
  unfold get_voice_input.
  destruct (classify (next_attempt W h)) as [text| | | |e] eqn:Hc.
  - now apply capture_with_text.
  - now apply capture_with_timeout.
  - now apply capture_with_unintelligible.
  - now apply capture_with_service_error.
  - now apply capture_with_error.
Qed.

Lemma get_voice_input_failed (prompt : string) (h : trace) :
  is_failed_capture (classify (next_attempt W h)) = true ->
  fst (get_voice_input W prompt h) = Returned None /\
  exists msg, msg <> "Listening..." /\
              In (Status msg) (snd (get_voice_input W prompt h)).
Proof using W.
  unfold get_voice_input.
  destruct (classify (next_attempt W h)) as [text| | | |e] eqn:Hc; try discriminate;
    intros _.
  - rewrite (capture_with_timeout _ prompt h Hc). split; [reflexivity|].
    exists "Listening timed out. Try again.". split; [discriminate|].
    cbn. do 5 right. now left.
  - destruct (capture_with_unintelligible _ prompt h Hc) as [sound ->].
    split; [reflexivity|].
    exists "Could not understand audio. Please try again.". split; [discriminate|].
    cbn. do 7 right. now left.
  - destruct (capture_with_service_error _ prompt h Hc) as [sound ->].
    split; [reflexivity|].
    exists "Speech service error. Please check connection.". split; [discriminate|].
    cbn. do 7 right. now left.
Qed.

Lemma get_voice_input_error (prompt : string) (h : trace) (e : exn) :
  classify (next_attempt W h) = CapError e ->
  fst (get_voice_input W prompt h) = Raised e /\
  forall msg, In (Status msg) (snd (get_voice_input W prompt h)) -> msg = "Listening...".
Proof. unfold get_voice_input. apply capture_with_error. Qed.

(** C8, amended. Whatever the text to speech chain raises is caught in
    [speak_text] and printed on the console; it is no status. In
    [get_voice_input] the timeout of [listen] and the two recognizer errors
    [UnknownValueError] and [RequestError] are caught and turned into a
    status and a [None]. Any other error of the microphone or the
    recognizer is not caught: it leaves [get_voice_input], both loops and
    [run], and no status reports it. *)
Theorem caught_and_uncaught_errors (prompt : string) (h : trace) :
  (forall text,
     fst (speak_text W text h) = Returned tt /\
     forall e, tts_play W h text = Raise e ->
       snd (speak_text W text h) = [Console ("Error in speak_text: " ++ exn_msg e)%string]) /\
  (is_failed_capture (classify (next_attempt W h)) = true ->
     fst (get_voice_input W prompt h) = Returned None /\
     exists msg, msg <> "Listening..." /\
                 In (Status msg) (snd (get_voice_input W prompt h))) /\
  (forall e, classify (next_attempt W h) = CapError e ->
     (fst (get_voice_input W prompt h) = Raised e /\
      forall msg, In (Status msg) (snd (get_voice_input W prompt h)) ->
                  msg = "Listening...") /\
     (forall k, fst (collect_loop w2n W (S k) h) = Raised e) /\
     (forall m, fst (awaiting float_str W m h) = Raised e)) /\
  (forall e k, classify (next_attempt W (h ++ perform W h hello_script)) = CapError e ->
     fst (run w2n float_str W (S k) h) = Raised e).
Proof.
  assert (Hcollect : forall e k h0,
            classify (next_attempt W h0) = CapError e ->
            fst (collect_loop w2n W (S k) h0) = Raised e).
  { intros e k h0 Hc. rewrite collect_loop_step. unfold collect_iteration, io_bind.
    destruct (get_voice_input_error "Set alarm time in minutes" h0 e Hc) as [Hg _].
    destruct (get_voice_input W "Set alarm time in minutes" h0) as [r es].
    cbn [fst] in Hg. now subst r. }
  split; [|split; [|split]].
  - intros text. rewrite speak_text_eq. split; [reflexivity|].
    intros e He. cbn [snd]. unfold speech_event. now rewrite He.
  - apply get_voice_input_failed.
  - intros e Hc. split; [|split].
    + now apply get_voice_input_error.
    + intros k. now apply Hcollect.
    + intros m. destruct (get_voice_input_error "Continue or stop?" h e Hc) as [Hg _].
      destruct (get_voice_input W "Continue or stop?" h) as [r es] eqn:E.
      cbn [fst] in Hg. subst r. now rewrite (awaiting_raises m h e es E).
  - intros e k Hc. rewrite run_eq. cbv zeta.
    pose proof (Hcollect e k _ Hc) as Hl.
    destruct (collect_loop w2n W (S k) _) as [r es]. cbn [fst] in Hl. now subst r.
Qed.


(** ** The claims about the loops *)

Lemma run_sleeps (fuel : nat) (h : trace) (r : outcome unit) (es : trace) (x : pyfloat) :
  run w2n float_str W fuel h = (r, es) ->
  In (Slept x) es ->
  exists m, fst (collect_loop w2n W fuel (h ++ perform W h hello_script)) = Returned m /\
            x = f64_mul_int m 60 /\ Forall (sleeps_for x) es.
Proof.
  rewrite run_eq. cbv zeta.
  assert (Hhello : Forall is_dialogue (perform W h hello_script)).
  { apply perform_dialogue. cbn. intros e [[= <-]|[[=]|[]]]. exact I. }
  destruct (collect_loop w2n W fuel (h ++ perform W h hello_script)) as [[m|e|] es1] eqn:Hc;
    pose proof (collect_loop_dialogue fuel _ _ _ Hc) as Hes1.
  - assert (Hset : Forall is_dialogue
              (perform W (h ++ perform W h hello_script ++ es1)
                 (timer_set_script float_str m))).
    { apply perform_dialogue. cbn. intros e [[= <-]|[[=]|[]]]. exact I. }
    destruct (alarm_loop float_str W fuel m _) as [r2 es2] eqn:Ha.
    pose proof (alarm_loop_sleeps fuel m _ _ _ Ha) as Hes2.
    assert (Hall : Forall (sleeps_for (f64_mul_int m 60))
              (perform W h hello_script ++ es1 ++
               perform W (h ++ perform W h hello_script ++ es1)
                 (timer_set_script float_str m) ++ es2 ++ [Finished])).
    { repeat (apply Forall_app; split);
        try (eapply Forall_impl; [apply dialogue_sleeps_for|eassumption]);
        [exact Hes2|now repeat constructor]. }
    assert (Hin : forall es', (exists tl, es' ++ tl =
                     perform W h hello_script ++ es1 ++
                     perform W (h ++ perform W h hello_script ++ es1)
                       (timer_set_script float_str m) ++ es2 ++ [Finished]) ->
                   In (Slept x) es' ->
                   exists m0, Returned m = Returned m0 /\
                     x = f64_mul_int m0 60 /\ Forall (sleeps_for x) es').
    { intros es' [tl Htl] Hx. exists m. split; [reflexivity|].
      rewrite <- Htl in Hall. apply Forall_app in Hall. destruct Hall as [Hall _].
      pose proof (proj1 (Forall_forall _ _) Hall _ Hx) as Hm. cbn in Hm. subst x.
      split; [reflexivity|exact Hall]. }
    destruct r2 as [[]|e|]; intros [= <- <-]; apply Hin.
    + exists []. now rewrite app_nil_r.
    + exists [Finished]. cbn [perform hello_script timer_set_script app].
      rewrite <- ?app_assoc. cbn [app]. reflexivity.
    + exists [Finished]. cbn [perform hello_script timer_set_script app].
      rewrite <- ?app_assoc. cbn [app]. reflexivity.
  - intros [= <- <-] Hx. exfalso.
    assert (Hall : Forall is_dialogue (perform W h hello_script ++ es1))
      by (apply Forall_app; now split).
    exact (proj1 (Forall_forall _ _) Hall _ Hx).
  - intros [= <- <-] Hx. exfalso.
    assert (Hall : Forall is_dialogue (perform W h hello_script ++ es1))
      by (apply Forall_app; now split).
    exact (proj1 (Forall_forall _ _) Hall _ Hx).
Qed.

(** C5, amended. The first loop is left for the countdown exactly when a
    captured utterance is read by [word_to_num] as a float [m] that passes
    [m > 0], and [m] becomes the target. A failed capture, an utterance for
    which [word_to_num] returns [None] and an utterance read as a float
    that fails [m > 0] end the pass with the loop still running, as often
    as they come. An utterance on which [word_to_num] raises does not keep
    the loop running: the exception leaves the loop and [run], and no
    countdown starts. A pass ends in one of these ways, or with an
    exception of the capture. So a target that reaches the countdown has
    passed [m > 0]: it is not NaN, not a zero and not negative. *)
Theorem collecting_duration_invariant :
  (forall h m,
     fst (collect_iteration w2n W h) = Returned (Some m) <->
     exists u, fst (get_voice_input W "Set alarm time in minutes" h) = Returned (Some u) /\
               valid_duration w2n u m) /\
  (forall h k, capture_rejected w2n W h ->
     fst (collect_iteration w2n W h) = Returned None /\
     collect_loop w2n W (S k) h =
       (fst (collect_loop w2n W k (h ++ snd (collect_iteration w2n W h))),
        snd (collect_iteration w2n W h) ++
        snd (collect_loop w2n W k (h ++ snd (collect_iteration w2n W h))))) /\
  (forall h k u e,
     fst (get_voice_input W "Set alarm time in minutes" h) = Returned (Some u) ->
     word_to_num w2n (PyStr u) = Raise e ->
     collect_loop w2n W (S k) h =
       (Raised e, snd (get_voice_input W "Set alarm time in minutes" h)) /\
     forall x, ~ In (Slept x) (snd (collect_loop w2n W (S k) h))) /\
  (forall fuel h e es,
     collect_loop w2n W fuel (h ++ perform W h hello_script) = (Raised e, es) ->
     run w2n float_str W fuel h = (Raised e, perform W h hello_script ++ es)) /\
  (forall h,
     capture_rejected w2n W h \/
     (exists u m, fst (get_voice_input W "Set alarm time in minutes" h)
                    = Returned (Some u) /\ valid_duration w2n u m) \/
     (exists u e, fst (get_voice_input W "Set alarm time in minutes" h)
                    = Returned (Some u) /\ word_to_num w2n (PyStr u) = Raise e) \/
     (exists e, fst (get_voice_input W "Set alarm time in minutes" h) = Raised e)) /\
  (forall fuel h, (forall h', capture_rejected w2n W h') ->
     fst (collect_loop w2n W fuel h) = Unfinished) /\
  (forall fuel h m, fst (collect_loop w2n W fuel h) = Returned m ->
     (exists h' u, fst (get_voice_input W "Set alarm time in minutes" h')
                     = Returned (Some u) /\
                   valid_duration w2n u m) /\
     f64_gt0 m = true /\
     m <> S754_nan /\ (forall s, m <> S754_zero s) /\
     (forall mant ex, m <> S754_finite true mant ex) /\ m <> S754_infinity true) /\
  (forall fuel h r es x, run w2n float_str W fuel h = (r, es) -> In (Slept x) es ->
     exists m, f64_gt0 m = true /\ x = f64_mul_int m 60).
Proof.
  split; [|split; [|split; [|split; [|split; [|split; [|split]]]]]].
  - apply collect_iteration_some.
  - intros h k Hr. pose proof (collect_iteration_rejected h Hr) as Hn.
    split; [exact Hn|]. rewrite collect_loop_step.
    destruct (collect_iteration w2n W h) as [r es]. cbn [fst] in Hn. now subst r.
  - intros h k u e Hg Hw.
    assert (Hl : collect_loop w2n W (S k) h =
                 (Raised e, snd (get_voice_input W "Set alarm time in minutes" h))).
    { rewrite collect_loop_step.
      rewrite (collect_iteration_raises h u e Hg Hw). reflexivity. }
    split; [exact Hl|]. intros x Hin.
    pose proof (collect_loop_dialogue (S k) h _ _ Hl) as Hd.
    rewrite Hl in Hin. cbn [snd] in Hin.
    exact (proj1 (Forall_forall _ _) Hd _ Hin).
  - intros fuel h e es Hl. rewrite run_eq. cbv zeta. now rewrite Hl.
  - intros h. apply collect_pass_cases.
  - intros fuel h. apply collect_loop_never_leaves.
  - intros fuel h m Hm. destruct (collect_loop_returns fuel h m Hm) as (h' & u & Hg & Hv).
    split; [now exists h', u|]. destruct Hv as [_ Hpos].
    split; [exact Hpos|now apply f64_gt0_excludes].
  - intros fuel h r es x Hrun Hx.
    destruct (run_sleeps fuel h r es x Hrun Hx) as (m & Hm & -> & _).
    exists m. split; [|reflexivity].
    destruct (collect_loop_returns fuel _ m Hm) as (h' & u & _ & _ & Hpos). exact Hpos.
Qed.





End Properties.

(** * The claims on sample sessions *)

(** ** Duration parser *)


Lemma word_to_num_numerals_then_words_witness :
  word_to_num sample_w2n (PyStr "15") = Ok (Some (f64_of_Z 15)) /\
  word_to_num sample_w2n (PyStr " 3.5 ") = Ok (Some (f64_of_decimal false 35 (-1))) /\
  word_to_num sample_w2n (PyStr "ten") = Ok (Some (f64_of_Z 10)) /\
  word_to_num sample_w2n (PyStr "Twenty Five") = Ok (Some (f64_of_Z 25)).
Proof.
  split; [|split; [|split]].
  - apply (proj1 (word_to_num_numerals_then_words sample_w2n "15")).
    vm_compute. reflexivity.
  - apply (proj1 (word_to_num_numerals_then_words sample_w2n " 3.5 ")).
    vm_compute. reflexivity.
  - apply (proj2 (word_to_num_numerals_then_words sample_w2n "ten")
             could_not_convert (PyInt 10)); vm_compute; reflexivity.
  - apply (proj2 (word_to_num_numerals_then_words sample_w2n "Twenty Five")
             could_not_convert (PyInt 25)); vm_compute; reflexivity.
Defined.

(** C1 as stated fails: for the strings "0" and "-5" the parser returns a
    float, not the sentinel. *)
Lemma word_to_num_zero_and_negative :
  word_to_num sample_w2n (PyStr "0") = Ok (Some (S754_zero false)) /\
  word_to_num sample_w2n (PyStr "-5") = Ok (Some (SFopp (f64_of_Z 5))) /\
  word_to_num sample_w2n (PyStr "0") <> Ok None /\
  word_to_num sample_w2n (PyStr "-5") <> Ok None.
Proof.
  split; [|split; [|split]]; vm_compute; first [reflexivity|discriminate].
Defined.

Lemma invalid_durations_are_refused_witness :
  word_to_num sample_w2n (PyStr "banana") = Ok None /\
  word_to_num sample_w2n (PyStr "-5") = Ok (Some (SFopp (f64_of_Z 5))) /\
  check_minutes sample_w2n (scripted [] attempt_timeout) "0" [] =
    (Returned None,
     [Status "Invalid input. Please say a positive number.";
      Spoken "Invalid input. Please say a number."]).
Proof.
  split; [|split].
  - apply (proj1 (invalid_durations_are_refused sample_w2n
                    (scripted [] attempt_timeout) "banana" [])
             could_not_convert (mk_exn ValueError "No valid number words found!"));
      vm_compute; reflexivity.
  - apply (proj1 (proj2 (invalid_durations_are_refused sample_w2n
                           (scripted [] attempt_timeout) "-5" [])));
      vm_compute; reflexivity.
  - apply (proj2 (proj2 (invalid_durations_are_refused sample_w2n
                           (scripted [] attempt_timeout) "0" []))).
    right. exists (S754_zero false). split; vm_compute; reflexivity.
Defined.

(** ** Capture *)

(** C10 as stated fails: without a microphone the capture returns neither a
    text nor [None], it raises; and a timeout and unintelligible speech
    differ in more than their status, the second one speaks an apology. *)
Lemma capture_differs_beyond_status :
  fst (get_voice_input (scripted [] attempt_no_microphone) "Continue or stop?" []) =
    Raised (mk_exn OSError "No Default Input Device Available") /\
  filter (fun e => negb (is_status e))
    (snd (get_voice_input (scripted [] attempt_timeout) "Continue or stop?" [])) =
    [Spoken "Continue or stop?"; MicOpened; Calibrated; Spoken "Listening"; MicClosed] /\
  filter (fun e => negb (is_status e))
    (snd (get_voice_input (scripted [] attempt_unintelligible) "Continue or stop?" [])) =
    [Spoken "Continue or stop?"; MicOpened; Calibrated; Spoken "Listening";
     Heard []; MicClosed; Spoken "Sorry, I did not understand."].
Proof. split; [|split]; reflexivity. Defined.

(** C8 as stated fails: an error of the microphone leaves [run] uncaught
    and unreported, and an error of the speech output is printed, not sent
    as a status. *)
Lemma microphone_error_ends_run :
  run sample_w2n sample_float_str (scripted [] attempt_no_microphone) 1 [] =
    (Raised (mk_exn OSError "No Default Input Device Available"),
     [Status "Hello! I am Concentra. How many minutes?";
      Spoken greeting_text;
      Spoken "Set alarm time in minutes"]) /\
  speak_text (scripted_mute [] attempt_timeout) "Listening" [] =
    (Returned tt, [Console "Error in speak_text: Failed to connect"]).
Proof. split; reflexivity. Defined.

Lemma caught_and_uncaught_errors_witness :
  fst (get_voice_input (scripted [] attempt_service_error) "Continue or stop?" []) =
    Returned None /\
  fst (run sample_w2n sample_float_str (scripted [] attempt_no_microphone) 1 []) =
    Raised (mk_exn OSError "No Default Input Device Available").
Proof.
  split.
  - apply (proj1 (proj2 (caught_and_uncaught_errors sample_w2n sample_float_str
                           (scripted [] attempt_service_error) "Continue or stop?" []))).
    reflexivity.
  - apply (proj2 (proj2 (proj2 (caught_and_uncaught_errors sample_w2n sample_float_str
                           (scripted [] attempt_no_microphone) "Continue or stop?" [])))).
    reflexivity.
Defined.

(** ** Loops *)

(** C5 as stated fails. An utterance that cannot be read does not always
    keep the session collecting: on "million one" the word converter
    raises [IndexError], which [word_to_num] does not catch, and the
    exception ends the loop and [run]. And the utterance "infinity" is read
    as plus infinity, which passes [minutes > 0]: the loop is left with a
    target that is no real number. *)
Lemma collecting_is_left_otherwise :
  word_to_num sample_w2n_million (PyStr "million one") =
    Raise (mk_exn IndexError "list index out of range") /\
  fst (collect_loop sample_w2n_million
         (scripted [attempt_text "million one"] attempt_timeout) 2 []) =
    Raised (mk_exn IndexError "list index out of range") /\
  fst (run sample_w2n_million sample_float_str
         (scripted [attempt_text "million one"] attempt_timeout) 2 []) =
    Raised (mk_exn IndexError "list index out of range") /\
  fst (collect_loop sample_w2n (scripted [attempt_text "infinity"] attempt_timeout) 1 []) =
    Returned (S754_infinity false) /\
  f64_is_finite (S754_infinity false) = false.
Proof.
  split; [|split; [|split; [|split]]]; vm_compute; reflexivity.
Defined.

(** Three silent captures and a word that is no number leave the session
    collecting; the word ten then sets the target; and "million one", on
    which the parser raises, ends the loop right after its capture. *)
Lemma collecting_duration_invariant_witness :
  fst (collect_loop sample_w2n
         (scripted [attempt_timeout; attempt_timeout; attempt_timeout;
                    attempt_text "banana"] attempt_timeout) 4 []) = Unfinished /\
  fst (collect_loop sample_w2n
         (scripted [attempt_timeout; attempt_timeout; attempt_timeout;
                    attempt_text "banana"; attempt_text "ten"] attempt_timeout) 5 []) =
    Returned (f64_of_Z 10) /\
  f64_gt0 (f64_of_Z 10) = true /\
  collect_loop sample_w2n_million
    (scripted [attempt_text "million one"] attempt_timeout) 2 [] =
    (Raised (mk_exn IndexError "list index out of range"),
     snd (get_voice_input (scripted [attempt_text "million one"] attempt_timeout)
            "Set alarm time in minutes" [])).
Proof.
  split; [vm_compute; reflexivity|]. split; [vm_compute; reflexivity|]. split.
  - destruct (collecting_duration_invariant sample_w2n sample_float_str
                (scripted [attempt_timeout; attempt_timeout; attempt_timeout;
                           attempt_text "banana"; attempt_text "ten"] attempt_timeout))
      as (_ & _ & _ & _ & _ & _ & Hpos & _).
    destruct (Hpos 5%nat [] (f64_of_Z 10)) as (_ & Hgt & _).
    + vm_compute. reflexivity.
    + exact Hgt.
  - destruct (collecting_duration_invariant sample_w2n_million sample_float_str
                (scripted [attempt_text "million one"] attempt_timeout))
      as (_ & _ & Hraise & _).
    destruct (Hraise [] 1%nat "million one"
                (mk_exn IndexError "list index out of range")) as [Hl _].
    + reflexivity.
    + vm_compute. reflexivity.
    + exact Hl.
Defined.






(** * Further properties of the program *)

(** ** The duration parser *)

(** X1. [word_to_num] does not see the letter case of its argument, nor the
    blanks around it. *)
Theorem word_to_num_ignores_case_and_blanks
    (w2n : string -> result pyval) (s : string) :
  word_to_num w2n (PyStr (str_lower s)) = word_to_num w2n (PyStr s) /\
  word_to_num w2n (PyStr (str_strip s)) = word_to_num w2n (PyStr s).
Proof.
  unfold word_to_num. split.
  - now rewrite str_lower_idem.
  - now rewrite <- str_strip_lower, str_strip_idem.
Qed.

(** X2. No [ValueError] leaves [word_to_num]. An exception that leaves it
    was raised for a string that [float] does not read, by the word
    converter or by the conversion of its answer to a float, and nothing in
    [word_to_num] catches it. *)
Theorem word_to_num_raises_no_value_error
    (w2n : string -> result pyval) (v : pyval) (e : exn) :
  word_to_num w2n v = Raise e ->
  is_instance ValueError e = false /\
  exists s,
    v = PyStr s /\
    float_of_str s = Raise could_not_convert /\
    (w2n (str_strip (str_lower s)) = Raise e \/
     exists n, w2n (str_strip (str_lower s)) = Ok n /\ py_float n = Raise e).
Proof.
  destruct v as [| | | |s| |]; try discriminate.
  unfold word_to_num. cbn [py_float]. rewrite float_of_str_normalized.
  destruct (float_of_str s) as [x|e0] eqn:Hf; [discriminate|].
  pose proof (float_of_str_raises _ _ Hf) as He0. subst e0.
  cbn [result_bind result_try].
  change (is_instance ValueError could_not_convert) with true. cbv iota.
  destruct (w2n (str_strip (str_lower s))) as [n|e1] eqn:Hw; cbn [result_bind].
  - destruct (py_float n) as [x|e2] eqn:Hn; cbn [result_bind result_try];
      [discriminate|].
    destruct (is_instance ValueError e2) eqn:He; [discriminate|].
    intros [= <-]. split; [exact He|].
    exists s. split; [reflexivity|]. split; [exact Hf|]. right. now exists n.
  - cbn [result_try]. destruct (is_instance ValueError e1) eqn:He; [discriminate|].
    intros [= <-]. split; [exact He|].
    exists s. split; [reflexivity|]. split; [exact Hf|]. now left.
Qed.

Lemma word_to_num_raises_no_value_error_witness :
  word_to_num huge_w2n (PyStr "a googol") =
    Raise (mk_exn OverflowError "int too large to convert to float") /\
  is_instance ValueError (mk_exn OverflowError "int too large to convert to float") = false.
Proof.
  assert (H : word_to_num huge_w2n (PyStr "a googol") =
              Raise (mk_exn OverflowError "int too large to convert to float"))
    by (vm_compute; reflexivity).
  split; [exact H|].
  exact (proj1 (word_to_num_raises_no_value_error huge_w2n _ _ H)).
Defined.

(** ** The first loop *)

(** X3. When [word_to_num] raises on the first captured utterance, the
    exception leaves [run]: the run ends right after the capture, and
    nothing tells the window. *)
Theorem parser_error_ends_run
    (w2n : string -> result pyval) (float_str : pyfloat -> string) (W : world)
    (k : nat) (h : trace) (u : string) (e : exn) :
  fst (get_voice_input W "Set alarm time in minutes" (h ++ perform W h hello_script))
    = Returned (Some u) ->
  word_to_num w2n (PyStr u) = Raise e ->
  run w2n float_str W (S k) h =
    (Raised e,
     perform W h hello_script ++
     snd (get_voice_input W "Set alarm time in minutes" (h ++ perform W h hello_script))).
Proof.
  intros Hg Hw. rewrite run_eq. cbv zeta. rewrite collect_loop_step.
  unfold collect_iteration, io_bind.
  destruct (get_voice_input W "Set alarm time in minutes" _) as [r es].
  cbn [fst] in Hg. subst r. cbn [snd].
  rewrite (check_minutes_raises w2n W u e _ Hw). now rewrite app_nil_r.
Qed.

Lemma parser_error_ends_run_witness :
  run huge_w2n sample_float_str (scripted [attempt_text "a googol"] attempt_timeout) 1 [] =
    (Raised (mk_exn OverflowError "int too large to convert to float"),
     [Status "Hello! I am Concentra. How many minutes?"; Spoken greeting_text;
      Spoken "Set alarm time in minutes"; MicOpened; Calibrated;
      Status "Listening..."; Spoken "Listening"; Heard []; MicClosed;
      Status "You said: a googol"; Spoken "You said a googol"]).
Proof.
  apply (parser_error_ends_run huge_w2n sample_float_str
           (scripted [attempt_text "a googol"] attempt_timeout) 0%nat [] "a googol").
  - reflexivity.
  - vm_compute. reflexivity.
Defined.

(** X8. The first loop returns on the first valid duration, however many
    rejected captures came before it, and fuel beyond that pass changes
    nothing. *)
Theorem collect_loop_returns_after
    (w2n : string -> result pyval) (W : world) (n extra : nat) (h : trace)
    (u : string) (m : pyfloat) :
  (forall i, (i < n)%nat -> capture_rejected w2n W (before_collect_pass w2n W i h)) ->
  fst (get_voice_input W "Set alarm time in minutes" (before_collect_pass w2n W n h))
    = Returned (Some u) ->
  valid_duration w2n u m ->
  fst (collect_loop w2n W (S n + extra) h) = Returned m /\
  collect_loop w2n W (S n + extra) h = collect_loop w2n W (S n) h.
Proof.
  revert h. induction n as [|n IH]; intros h Hrej Hg Hv.
  - cbn [before_collect_pass] in Hg. cbn [Nat.add].
    rewrite !collect_loop_step.
    assert (Hs : fst (collect_iteration w2n W h) = Returned (Some m)).
    { apply collect_iteration_some. now exists u. }
    destruct (collect_iteration w2n W h) as [r es]. cbn [fst] in Hs. subst r.
    split; reflexivity.
  - assert (H0 : fst (collect_iteration w2n W h) = Returned None).
    { apply collect_iteration_rejected. apply (Hrej 0%nat). apply Nat.lt_0_succ. }
    destruct (IH (h ++ snd (collect_iteration w2n W h))) as [IH1 IH2].
    + intros i Hi. apply (Hrej (S i)). now apply -> Nat.succ_lt_mono.
    + exact Hg.
    + exact Hv.
    + change (S (S n) + extra)%nat with (S (S n + extra)).
      rewrite (collect_loop_step w2n W (S n + extra)).
      rewrite (collect_loop_step w2n W (S n)).
      destruct (collect_iteration w2n W h) as [r es]. cbn [fst snd] in *. subst r.
      split; [exact IH1|now rewrite IH2].
Qed.

Lemma collect_loop_returns_after_witness :
  fst (collect_loop sample_w2n
         (scripted [attempt_timeout; attempt_text "banana"; attempt_text "0";
                    attempt_text "ten"] attempt_timeout) (4 + 3) []) =
    Returned (f64_of_Z 10).
Proof.
  destruct (collect_loop_returns_after sample_w2n
              (scripted [attempt_timeout; attempt_text "banana"; attempt_text "0";
                         attempt_text "ten"] attempt_timeout)
              3 3 [] "ten" (f64_of_Z 10)) as [Hret _]; [| | |exact Hret].
  - intros i Hi. destruct i as [|[|[|i]]].
    + left. reflexivity.
    + right. exists "banana". split; [reflexivity|]. left. vm_compute. reflexivity.
    + right. exists "0". split; [reflexivity|].
      right. exists (S754_zero false). split; vm_compute; reflexivity.
    + exfalso. do 3 apply Nat.succ_lt_mono in Hi. exact (Nat.nlt_0_r _ Hi).
  - reflexivity.
  - split; vm_compute; reflexivity.
Defined.

(** ** The microphone *)

Lemma mic_scan_app (b : bool) (es1 es2 : trace) :
  mic_scan b (es1 ++ es2) =
  match mic_scan b es1 with
  | Some b' => mic_scan b' es2
  | None => None
  end.
Proof.
  revert b. induction es1 as [|e es1 IH]; intros b; [reflexivity|].
  destruct e, b; cbn [app mic_scan]; try reflexivity; apply IH.
Qed.

Lemma mic_keeps_ret {A : Type} (b : bool) (a : A) : mic_keeps b (io_ret a).
Proof. intros h r es [= <- <-]. reflexivity. Qed.

Lemma mic_keeps_lift {A : Type} (b : bool) (x : result A) : mic_keeps b (io_lift x).
Proof. destruct x; intros h r es [= <- <-]; reflexivity. Qed.

Lemma mic_keeps_unfinished {A : Type} (b : bool) : mic_keeps b (@io_unfinished A).
Proof. intros h r es [= <- <-]. reflexivity. Qed.

Lemma mic_keeps_emit (b : bool) (e : event) :
  mic_scan b [e] = Some b -> mic_keeps b (io_emit e).
Proof. intros He h r es [= <- <-]. exact He. Qed.

Lemma mic_keeps_bind {A B : Type} (b : bool) (m : io A) (k : A -> io B) :
  mic_keeps b m -> (forall a, mic_keeps b (k a)) -> mic_keeps b (io_bind m k).
Proof.
  intros Hm Hk h r es. unfold io_bind.
  destruct (m h) as [[a|e|] es1] eqn:E1; specialize (Hm _ _ _ E1).
  - destruct (k a (h ++ es1)) as [r2 es2] eqn:E2. intros [= <- <-].
    rewrite mic_scan_app, Hm. exact (Hk _ _ _ _ E2).
  - now intros [= <- <-].
  - now intros [= <- <-].
Qed.

Lemma mic_keeps_try {A : Type} (b : bool) (body : io A)
    (handlers : list (exn_class * (exn -> io A))) :
  mic_keeps b body ->
  (forall cls f e, In (cls, f) handlers -> mic_keeps b (f e)) ->
  mic_keeps b (io_try body handlers).
Proof.
  intros Hb Hh h r es. unfold io_try.
  destruct (body h) as [[a|e|] es1] eqn:E1; specialize (Hb _ _ _ E1).
  - now intros [= <- <-].
  - destruct (find_handler e handlers) as [handler|] eqn:Ef.
    + destruct (find_handler_in _ _ _ Ef) as (cls & f & Hin & ->).
      destruct (f e (h ++ es1)) as [r2 es2] eqn:E2. intros [= <- <-].
      rewrite mic_scan_app, Hb. exact (Hh _ _ _ Hin _ _ _ E2).
    + now intros [= <- <-].
  - now intros [= <- <-].
Qed.

(** The [with] block opens a closed microphone and closes it again, also
    when its body raises. *)
Lemma mic_keeps_with_microphone {A : Type} (open : result unit) (body : io A) :
  mic_keeps true body -> mic_keeps false (with_microphone open body).
Proof.
  intros Hb h r es. unfold with_microphone, io_bind, io_emit.
  destruct open as [[]|e]; cbn [io_lift io_ret io_raise].
  - destruct (body _) as [r1 es1] eqn:E1. cbn [app]. intros [= <- <-].
    cbn [mic_scan]. rewrite mic_scan_app, (Hb _ _ _ E1). reflexivity.
  - now intros [= <- <-].
Qed.

Lemma speak_text_mic (W : world) (b : bool) (text : string) :
  mic_keeps b (speak_text W text).
Proof.
  intros h r es. rewrite speak_text_eq. intros [= <- <-].
  unfold speech_event. now destruct (tts_play W h text).
Qed.

Ltac split_handlers Hin :=
  cbn in Hin;
  repeat match type of Hin with
         | _ \/ _ => destruct Hin as [Hin|Hin]
         | False => destruct Hin
         | _ = _ => injection Hin as <- <-
         end.

Ltac mic :=
  repeat first
    [ apply speak_text_mic
    | apply mic_keeps_ret
    | apply mic_keeps_lift
    | apply mic_keeps_emit; reflexivity
    | apply mic_keeps_try; [|intros ? ? ? Hin; split_handlers Hin]
    | apply mic_keeps_bind; [|intros ?] ].

Lemma get_voice_input_mic (W : world) (prompt : string) :
  mic_keeps false (get_voice_input W prompt).
Proof.
  assert (Hc : forall a, mic_keeps false (capture_with W a prompt)).
  { intros a. unfold capture_with.
    apply mic_keeps_bind; [apply speak_text_mic|]. intros _.
    apply mic_keeps_bind.
    - unfold listen_phase. apply mic_keeps_with_microphone. unfold emit_status. mic.
    - intros [sound|]; [|apply mic_keeps_ret].
      unfold recognize_phase, emit_status. mic. }
  intros h r es E. exact (Hc (next_attempt W h) h r es E).
Qed.

Lemma collect_loop_mic (w2n : string -> result pyval) (W : world) (fuel : nat) :
  mic_keeps false (collect_loop w2n W fuel).
Proof.
  induction fuel as [|k IH]; cbn [collect_loop]; [apply mic_keeps_unfinished|].
  apply mic_keeps_bind.
  - unfold collect_iteration.
    apply mic_keeps_bind; [apply get_voice_input_mic|].
    intros [u|]; [|apply mic_keeps_ret].
    unfold check_minutes, reject_input, emit_status.
    apply mic_keeps_bind; [apply mic_keeps_lift|].
    intros [m|]; [destruct (f64_gt0 m)|]; mic.
  - intros [m|]; [apply mic_keeps_ret|exact IH].
Qed.

Lemma alarm_loop_mic (float_str : pyfloat -> string) (W : world) (fuel : nat)
    (m : pyfloat) :
  mic_keeps false (alarm_loop float_str W fuel m).
Proof.
  induction fuel as [|k IH]; cbn [alarm_loop]; [apply mic_keeps_unfinished|].
  apply mic_keeps_bind; [unfold counting, time_sleep, emit_status; mic|]. intros _.
  apply mic_keeps_bind.
  - unfold awaiting. apply mic_keeps_bind; [apply get_voice_input_mic|].
    intros response. unfold decide, emit_status.
    destruct (says_stop response); mic.
  - intros [|]; [apply mic_keeps_ret|exact IH].
Qed.

(** X4. In every run, however long it is followed and however it ends,
    the microphone is opened only when closed and closed only when open,
    it is open while the program calibrates and listens, it is closed
    whenever the program sleeps, and it is closed at the end, also when an
    exception ends the capture. *)
Theorem run_releases_microphone
    (w2n : string -> result pyval) (float_str : pyfloat -> string) (W : world)
    (fuel : nat) (h : trace) :
  mic_scan false (snd (run w2n float_str W fuel h)) = Some false.
Proof.
  assert (H : mic_keeps false (run w2n float_str W fuel)).
  { unfold run, emit_status.
    apply mic_keeps_bind; [now apply mic_keeps_emit|]. intros _.
    apply mic_keeps_bind; [apply speak_text_mic|]. intros _.
    apply mic_keeps_bind; [apply collect_loop_mic|]. intros m.
    apply mic_keeps_bind; [now apply mic_keeps_emit|]. intros _.
    apply mic_keeps_bind; [apply speak_text_mic|]. intros _.
    apply mic_keeps_bind; [apply alarm_loop_mic|]. intros _.
    now apply mic_keeps_emit. }
  apply (H h (fst (run w2n float_str W fuel h))). apply surjective_pairing.
Qed.

(** ** The completion signal *)

Lemma dialogue_not_finished (e : event) : is_dialogue e -> e <> Finished.
Proof. destruct e; intros H; try discriminate. destruct H. Qed.

Lemma perform_not_finished (W : world) (script : list action) (h : trace) :
  (forall e, In (Do e) script -> e <> Finished) ->
  Forall (fun e => e <> Finished) (perform W h script).
Proof.
  apply perform_forall. intros h' text.
  apply dialogue_not_finished, speech_event_dialogue.
Qed.

Lemma alarm_loop_not_finished (float_str : pyfloat -> string) (W : world)
    (fuel : nat) (m : pyfloat) :
  emits_only (fun e => e <> Finished) (alarm_loop float_str W fuel m).
Proof.
  induction fuel as [|k IH]; cbn [alarm_loop]; [apply emits_only_unfinished|].
  apply emits_only_bind.
  - intros h r es E.
    destruct (counting_cases W m h) as [[_ Hc]|(e0 & _ & Hc)]; rewrite Hc in E.
    + assert (Hes : es = perform W h (counting_script m)) by congruence.
      rewrite Hes. apply perform_not_finished.
      cbn. intros e [[= <-]|[[= <-]|[[=]|[]]]]; discriminate.
    + assert (Hes : es = []) by congruence. rewrite Hes. constructor.
  - intros _. apply emits_only_bind.
    + apply (emits_only_weaken is_dialogue); [apply dialogue_not_finished|].
      apply awaiting_dialogue.
    + intros [|]; [apply emits_only_ret|exact IH].
Qed.

(** Where the first completion signal of a trace stands. *)
Lemma finished_is_last (a es1 es2 : trace) :
  Forall (fun e => e <> Finished) a ->
  a ++ [Finished] = es1 ++ Finished :: es2 ->
  es1 = a /\ es2 = [].
Proof.
  revert es1. induction a as [|x a IH]; intros es1 Ha Heq.
  - destruct es1 as [|y es1]; cbn in Heq.
    + injection Heq as <-. now split.
    + injection Heq as <- Heq. now destruct es1.
  - inversion Ha as [|? ? Hx Ha']; subst.
    destruct es1 as [|y es1]; cbn in Heq.
    + injection Heq as -> _. now elim Hx.
    + injection Heq as <- Heq. destruct (IH es1 Ha' Heq) as [-> ->]. now split.
Qed.

(** What [run] adds, without the completion signal. *)
Lemma run_events (w2n : string -> result pyval) (float_str : pyfloat -> string)
    (W : world) (fuel : nat) (h : trace) :
  exists a,
    Forall (fun e => e <> Finished) a /\
    (exists rest, a = Status "Hello! I am Concentra. How many minutes?" :: rest) /\
    snd (run w2n float_str W fuel h) =
      match fst (run w2n float_str W fuel h) with
      | Returned _ => a ++ [Finished]
      | _ => a
      end.
Proof.
  rewrite run_eq. cbv zeta.
  assert (Hhello : Forall (fun e => e <> Finished) (perform W h hello_script)).
  { apply perform_not_finished. cbn. intros e [[= <-]|[[=]|[]]]. discriminate. }
  destruct (collect_loop w2n W fuel (h ++ perform W h hello_script)) as [[m|e|] es1] eqn:Hc;
    pose proof (collect_loop_dialogue w2n W fuel _ _ _ Hc) as Hes1;
    apply (Forall_impl _ dialogue_not_finished) in Hes1.
  - assert (Hset : Forall (fun e => e <> Finished)
              (perform W (h ++ perform W h hello_script ++ es1)
                 (timer_set_script float_str m))).
    { apply perform_not_finished. cbn. intros e [[= <-]|[[=]|[]]]. discriminate. }
    destruct (alarm_loop float_str W fuel m _) as [r2 es2] eqn:Ha.
    pose proof (alarm_loop_not_finished float_str W fuel m _ _ _ Ha) as Hes2.
    exists (perform W h hello_script ++ es1 ++
            perform W (h ++ perform W h hello_script ++ es1)
              (timer_set_script float_str m) ++ es2).
    split; [|split].
    + repeat (apply Forall_app; split); assumption.
    + eexists. reflexivity.
    + destruct r2 as [[]|e|]; cbn [fst snd]; [|reflexivity|reflexivity].
      now rewrite <- !app_assoc.
  - exists (perform W h hello_script ++ es1). split; [|split].
    + apply Forall_app. now split.
    + eexists. reflexivity.
    + reflexivity.
  - exists (perform W h hello_script ++ es1). split; [|split].
    + apply Forall_app. now split.
    + eexists. reflexivity.
    + reflexivity.
Qed.

(** X5. [run] emits the completion signal exactly when it returns, and
    then once, as its last event. A run that an exception ends, or that is
    still going on, has not emitted it. *)
Theorem finished_exactly_on_return
    (w2n : string -> result pyval) (float_str : pyfloat -> string) (W : world)
    (fuel : nat) (h : trace) :
  (In Finished (snd (run w2n float_str W fuel h)) <->
   fst (run w2n float_str W fuel h) = Returned tt) /\
  (forall es1 es2, snd (run w2n float_str W fuel h) = es1 ++ Finished :: es2 ->
     es2 = [] /\ ~ In Finished es1).
Proof.
  destruct (run_events w2n float_str W fuel h) as (a & Ha & _ & Hes).
  assert (Hnot : ~ In Finished a).
  { intros Hin. exact (proj1 (Forall_forall _ _) Ha _ Hin eq_refl). }
  destruct (fst (run w2n float_str W fuel h)) as [[]|e|]; rewrite Hes; split.
  - split; [reflexivity|]. intros _. apply in_or_app. right. now left.
  - intros es1 es2 Heq. destruct (finished_is_last a es1 es2 Ha Heq) as [-> ->].
    now split.
  - split; [intros Hin; now elim Hnot|discriminate].
  - intros es1 es2 Heq. exfalso. apply Hnot. rewrite Heq.
    apply in_or_app. right. now left.
  - split; [intros Hin; now elim Hnot|discriminate].
  - intros es1 es2 Heq. exfalso. apply Hnot. rewrite Heq.
    apply in_or_app. right. now left.
Qed.

(** ** The window *)

Lemma replay_app (g : shell) (es1 es2 : trace) :
  replay g (es1 ++ es2) = replay (replay g es1) es2.
Proof. apply fold_left_app. Qed.

Lemma last_status_snoc (es : trace) (e : event) :
  last_status (es ++ [e]) =
  match e with
  | Status msg => Some msg
  | _ => last_status es
  end.
Proof. unfold last_status. rewrite fold_left_app. now destruct e. Qed.

(** As long as the worker has not finished, the window keeps its button
    and its worker, and its title shows the last status. *)
Lemma replay_running (g : shell) (es : trace) :
  Forall (fun e => e <> Finished) es ->
  replay g es =
    mk_shell
      match last_status es with
      | Some msg => ("Concentra - " ++ msg)%string
      | None => window_title g
      end
      (start_button_shown g) (worker_set g).
Proof.
  induction es as [|e es IH] using rev_ind; intros Hes.
  - now destruct g.
  - apply Forall_app in Hes. destruct Hes as [Hes He].
    rewrite replay_app, (IH Hes), last_status_snoc.
    inversion He as [|? ? Hne _]; subst.
    destruct e; try reflexivity. now elim Hne.
Qed.

(** X6. From a click on the start button on: after any part of the events
    of [run] that holds no completion signal has been delivered, the button
    is hidden, the worker slot is taken, and the title shows the last
    status delivered, or the starting notice before the first one. When
    [run] returns and all its events have been delivered, the window is
    back in its initial state, title, button and worker slot. Nothing is
    said of a window after an exception has left [run]. *)
Theorem window_during_and_after_run
    (w2n : string -> result pyval) (float_str : pyfloat -> string) (W : world)
    (fuel : nat) (g : shell) :
  (forall es1 es2,
     snd (run w2n float_str W fuel []) = es1 ++ es2 ->
     ~ In Finished es1 ->
     replay (start_voice_assistant g) es1 =
       mk_shell
         ("Concentra - " ++
          match last_status es1 with
          | Some msg => msg
          | None => "Starting assistant..."
          end)%string
         false true) /\
  (fst (run w2n float_str W fuel []) = Returned tt ->
   replay (start_voice_assistant g) (snd (run w2n float_str W fuel [])) = initial_shell).
Proof.
  split.
  - intros es1 es2 _ Hnot.
    assert (Hes1 : Forall (fun e => e <> Finished) es1).
    { apply Forall_forall. intros e He ->. now apply Hnot. }
    rewrite (replay_running _ es1 Hes1).
    now destruct (last_status es1).
  - destruct (run_events w2n float_str W fuel []) as (a & Ha & _ & Hes).
    intros Hret. rewrite Hret in Hes. rewrite Hes.
    rewrite replay_app, (replay_running _ a Ha). reflexivity.
Qed.

(** X7. Whatever clicks and worker events reach the window, in whatever
    order, the start button is shown exactly when the worker slot is empty,
    and the title is the name of the application, alone or followed by a
    status. *)
Theorem shell_invariant (inputs : list shell_input) :
  let g := fold_left shell_step inputs initial_shell in
  worker_set g = negb (start_button_shown g) /\
  (window_title g = "Concentra" \/
   exists msg, window_title g = ("Concentra - " ++ msg)%string).
Proof.
  cbv zeta. induction inputs as [|i inputs IH] using rev_ind.
  - split; [reflexivity|now left].
  - rewrite fold_left_app. cbn [fold_left].
    destruct IH as [IHw IHt].
    destruct (fold_left shell_step inputs initial_shell) as [title shown worker].
    cbn [worker_set start_button_shown window_title] in *.
    destruct i as [|e].
    + cbn [shell_step start_button_shown]. destruct shown; cbn.
      * split; [reflexivity|]. right. now exists "Starting assistant...".
      * now split.
    + destruct e; cbn; try (now split).
      * split; [exact IHw|]. right. now exists msg.
      * split; [reflexivity|now left].
Qed.

(** ** The second loop, pass by pass *)

Lemma alarm_loop_pass (float_str : pyfloat -> string) (W : world) (k : nat)
    (m : pyfloat) (h : trace) :
  alarm_loop float_str W (S k) m h =
  match alarm_pass float_str W m h with
  | (Returned true, es) => (Returned tt, es)
  | (Returned false, es) =>
      (fst (alarm_loop float_str W k m (h ++ es)),
       es ++ snd (alarm_loop float_str W k m (h ++ es)))
  | (Raised e, es) => (Raised e, es)
  | (Unfinished, es) => (Unfinished, es)
  end.
Proof.
  destruct (sleep_argument (f64_mul_int m 60)) as [[]|e0] eqn:Hs.
  - rewrite (alarm_loop_step float_str W k m h Hs). cbv zeta.
    unfold alarm_pass. unfold io_bind at 1.
    rewrite (counting_eq W m h Hs).
    destruct (awaiting float_str W m (h ++ perform W h (counting_script m)))
      as [[[|]|e|] es]; reflexivity.
  - rewrite (alarm_loop_refused float_str W k m e0 h Hs).
    unfold alarm_pass.
    now rewrite (bind_raised _ _ h e0 [] (counting_refused W m e0 h Hs)).
Qed.

Lemma count_sleeps_app (es1 es2 : trace) :
  count_sleeps (es1 ++ es2) = (count_sleeps es1 + count_sleeps es2)%nat.
Proof.
  induction es1 as [|e es1 IH]; [reflexivity|].
  destruct e; cbn [app count_sleeps]; rewrite IH; reflexivity.
Qed.

Lemma count_sleeps_dialogue (es : trace) :
  Forall is_dialogue es -> count_sleeps es = O.
Proof.
  induction 1 as [|e es He _ IH]; [reflexivity|].
  destruct e; cbn [count_sleeps]; try exact IH; destruct He.
Qed.

(** A pass of the second loop that comes to its decision has slept
    once. *)
Lemma alarm_pass_sleeps_once (float_str : pyfloat -> string) (W : world)
    (m : pyfloat) (h : trace) (stop : bool) :
  fst (alarm_pass float_str W m h) = Returned stop ->
  count_sleeps (snd (alarm_pass float_str W m h)) = 1%nat.
Proof.
  unfold alarm_pass.
  destruct (sleep_argument (f64_mul_int m 60)) as [[]|e0] eqn:Hs.
  - intros _. unfold io_bind. rewrite (counting_eq W m h Hs).
    destruct (awaiting float_str W m (h ++ perform W h (counting_script m)))
      as [r es] eqn:Ha.
    pose proof (awaiting_dialogue float_str W m _ _ _ Ha) as Hes.
    cbn [snd]. rewrite count_sleeps_app, (count_sleeps_dialogue es Hes).
    cbn [counting_script perform count_sleeps]. unfold speech_event.
    now destruct (tts_play W _ _).
  - rewrite (bind_raised _ _ h e0 [] (counting_refused W m e0 h Hs)). discriminate.
Qed.

(** X9. When the answers of the first [n] passes do not end the second
    loop and the answer of the next pass does, the loop returns in that
    pass, after exactly [n + 1] sleeps, and fuel beyond that pass changes
    nothing. *)
Theorem alarm_loop_returns_after
    (float_str : pyfloat -> string) (W : world) (m : pyfloat)
    (n extra : nat) (h : trace) :
  (forall i, (i < n)%nat ->
     fst (alarm_pass float_str W m (before_alarm_pass float_str W m i h)) = Returned false) ->
  fst (alarm_pass float_str W m (before_alarm_pass float_str W m n h)) = Returned true ->
  fst (alarm_loop float_str W (S n + extra) m h) = Returned tt /\
  count_sleeps (snd (alarm_loop float_str W (S n + extra) m h)) = S n /\
  alarm_loop float_str W (S n + extra) m h = alarm_loop float_str W (S n) m h.
Proof.
  revert h. induction n as [|n IH]; intros h Hcont Hstop.
  - cbn [before_alarm_pass] in Hstop. cbn [Nat.add].
    rewrite !alarm_loop_pass.
    pose proof (alarm_pass_sleeps_once float_str W m h true Hstop) as Hone.
    destruct (alarm_pass float_str W m h) as [r es]. cbn [fst snd] in *. subst r.
    now repeat split.
  - assert (H0 : fst (alarm_pass float_str W m h) = Returned false).
    { apply (Hcont 0%nat). apply Nat.lt_0_succ. }
    destruct (IH (h ++ snd (alarm_pass float_str W m h))) as (IH1 & IH2 & IH3).
    + intros i Hi. apply (Hcont (S i)). now apply -> Nat.succ_lt_mono.
    + exact Hstop.
    + change (S (S n) + extra)%nat with (S (S n + extra)).
      rewrite (alarm_loop_pass float_str W (S n + extra)).
      rewrite (alarm_loop_pass float_str W (S n)).
      pose proof (alarm_pass_sleeps_once float_str W m h false H0) as Hone.
      destruct (alarm_pass float_str W m h) as [r es]. cbn [fst snd] in *. subst r.
      cbn [fst snd]. split; [exact IH1|]. split.
      * now rewrite count_sleeps_app, Hone, IH2.
      * now rewrite IH3.
Qed.

Lemma alarm_loop_returns_after_witness :
  fst (alarm_loop sample_float_str
         (scripted [attempt_timeout; attempt_text "go on"; attempt_text "stop"]
            attempt_timeout) (3 + 5) (f64_of_Z 10) []) = Returned tt /\
  count_sleeps
    (snd (alarm_loop sample_float_str
            (scripted [attempt_timeout; attempt_text "go on"; attempt_text "stop"]
               attempt_timeout) (3 + 5) (f64_of_Z 10) [])) = 3%nat.
Proof.
  destruct (alarm_loop_returns_after sample_float_str
              (scripted [attempt_timeout; attempt_text "go on"; attempt_text "stop"]
                 attempt_timeout) (f64_of_Z 10) 2 5 []) as (H1 & H2 & _).
  - intros i Hi. destruct i as [|[|i]].
    + reflexivity.
    + reflexivity.
    + exfalso. do 2 apply Nat.succ_lt_mono in Hi. exact (Nat.nlt_0_r _ Hi).
  - reflexivity.
  - split; [exact H1|exact H2].
Defined.
